(** * multifit: datasets/create_wikitext.py

    A shallow embedding of the corpus builder of
    [multifit/datasets/create_wikitext.py] and the properties of its
    streaming, budget-bounded split algorithm.

    Conventions of the embedding:
    - a Python [str] is a [string]; an [ascii] stands for a code point
      below 256;
    - a Python [int] is a [Z];
    - a Python [float] is an IEEE 754 binary64 value, a [spec_float] with
      [prec = 53] and [emax = 1024];
    - the document tree read by [get_texts] is the list of its directories,
      each the list of its files, each the list of its [json.loads]-parsed
      lines;
    - the generator returned by [get_texts] is the list of the articles it
      has still to yield; a consumer returns the advanced generator;
    - an opened output file is the string written to it so far. *)

From Stdlib Require Import ZArith List String Ascii Bool Lia.
From Stdlib Require Import SpecFloat PrimFloat FloatOps.
Import ListNotations.

#[local] Open Scope string_scope.
#[local] Open Scope Z_scope.

(** ** Python string methods *)

Module PyStr.

(** [str.isspace] on one character, for the code points below 256:
    TAB..CR, FS..US, the space, NEL and the no-break space. *)
Definition isspace (c : ascii) : bool :=
  let n := N_of_ascii c in
  (((9 <=? n) && (n <=? 13)) || ((28 <=? n) && (n <=? 32))
   || (n =? 133) || (n =? 160))%N.

Definition NL : ascii := "010"%char.
Definition SP : ascii := " "%char.

(** The one-character string ['\n']. *)
Definition nl : string := String NL "".

Definition is_empty (s : string) : bool :=
  match s with
  | "" => true
  | String _ _ => false
  end.

Fixpoint lstrip (s : string) : string :=
  match s with
  | "" => ""
  | String c s' => if isspace c then lstrip s' else s
  end.

Fixpoint rstrip (s : string) : string :=
  match s with
  | "" => ""
  | String c s' =>
      let r := rstrip s' in
      if isspace c && is_empty r then "" else String c r
  end.

(** [s.strip()] *)
Definition strip (s : string) : string := rstrip (lstrip s).

(** [s.split(sep)] for a one-character separator: never the empty list,
    and empty fields are kept. *)
Fixpoint split (sep : ascii) (s : string) : list string :=
  match s with
  | "" => [""]
  | String c s' =>
      if Ascii.eqb c sep then "" :: split sep s'
      else match split sep s' with
           | field :: fields => String c field :: fields
           | [] => [String c ""]
           end
  end.

(** [sep.join(fields)] *)
Fixpoint join (sep : string) (fields : list string) : string :=
  match fields with
  | [] => ""
  | [field] => field
  | field :: fields' => field ++ sep ++ join sep fields'
  end.

(** [len(l)] *)
Definition len {A : Type} (l : list A) : Z := Z.of_nat (List.length l).

(** [s * n], the string repeated. *)
Fixpoint repeat (s : string) (n : nat) : string :=
  match n with
  | O => ""
  | S n' => s ++ repeat s n'
  end.

End PyStr.

Import PyStr.

(** ** The data model *)

(** One parsed record line; [get_texts] yields the same two fields. *)
Record article : Type := mkArticle { title : string; text : string }.

(** [root.iterdir()], then [dir_.iterdir()], then the lines of a file. *)
Definition tree : Type := list (list (list article)).

(** The tokenizer [mt]: [mt.tokenize(s)] and
    [mt.tokenize(s, return_str=True)]. *)
Class Tokenizer : Type := mkTokenizer {
  tokenize : string -> list string;
  tokenize_str : string -> string
}.

(** ** get_texts *)

(** The test of line 25: [text.strip() == title]. *)
Definition no_content (a : article) : bool :=
  String.eqb (strip (text a)) (title a).

Definition get_texts (root : tree) : list article :=
  flat_map (fun dir_ =>
    flat_map (fun wiki_file =>
      flat_map (fun line =>
        let text := text line in
        let title := title line in
        if String.eqb (strip text) title then []
        else [mkArticle title text]) wiki_file) dir_) root.

(** ** findTotalTokens *)

Definition findTotalTokens (root : tree) (mt : Tokenizer) : Z :=
  fold_left (fun total dir_ =>
    fold_left (fun total wiki_file =>
      fold_left (fun total line =>
        let text := text line in
        let title := title line in
        if String.eqb (strip text) title then total
        else
          let paragraphs := split NL text in
          fold_left (fun total paragraph =>
            let tokenized := tokenize (strip paragraph) in
            let token_count := len tokenized + 1 in
            if token_count >=? 100 then total + len tokenized else total)
            paragraphs total) wiki_file total) dir_ total) root 0.

(** ** write_wikitext *)

(** What a call has done so far: the text written to [f_out], and the two
    counters printed at the end. *)
Record writer : Type := mkWriter {
  f_out : string;
  count : Z;
  total_num_tokens : Z
}.

(** Lines 76 to 78: [[token for token in tokenized.split(' ') if token]]. *)
Definition tokens_of (tokenized : string) : list string :=
  filter (fun token => negb (is_empty token)) (split SP tokenized).

(** The body of the loop over the paragraphs, lines 73 to 80, on the pair
    [(num_tokens_article, tokenized_paragraphs)]. *)
Definition paragraph_step (mt : Tokenizer)
    (acc : Z * list string) (paragraph : string) : Z * list string :=
  let '(num_tokens_article, tokenized_paragraphs) := acc in
  let tokenized := tokenize_str (strip paragraph) in
  let tokens := tokens_of tokenized in
  (num_tokens_article + (len tokens + 1),
   (tokenized_paragraphs ++ [tokenized])%list).

(** Lines 68 to 80. *)
Definition tokenize_article (mt : Tokenizer) (text : string)
    : Z * list string :=
  fold_left (paragraph_step mt) (split NL text) (0, []).

(** Lines 88 and 89. *)
Definition write_paragraphs (out : string) (tokenized_paragraphs : list string)
    : string :=
  fold_left (fun out tokenized => out ++ (tokenized ++ nl))
    tokenized_paragraphs out.

(** The body of the loop over the articles, lines 66 to 93; the boolean is
    true on [break]. *)
Definition write_article (mt : Tokenizer) (num_tokens : option Z)
    (st : writer) (a : article) : writer * bool :=
  let text := text a in
  let title := title a in
  let '(num_tokens_article, tokenized_paragraphs) :=
    tokenize_article mt text in
  if num_tokens_article <? 100 then (st, false)
  else
    let out := f_out st ++ ("= " ++ strip title ++ " =") in
    let out := out ++ nl in
    let out := write_paragraphs out tokenized_paragraphs in
    let total := total_num_tokens st + (num_tokens_article + 1) in
    (mkWriter out (count st + 1) total,
     match num_tokens with
     | Some budget => total >? budget
     | None => false
     end).

(** The [for] loop of line 65 over the shared generator: the result holds
    the generator as the loop leaves it. *)
Fixpoint write_loop (mt : Tokenizer) (num_tokens : option Z)
    (text_iter : list article) (st : writer) : writer * list article :=
  match text_iter with
  | [] => (st, [])
  | a :: text_iter' =>
      let '(st', break) := write_article mt num_tokens st a in
      if break then (st', text_iter')
      else write_loop mt num_tokens text_iter' st'
  end.

(** [write_wikitext(file_path, text_iter, mt, num_tokens)] with the default
    [mode='w']: the file starts empty. *)
Definition write_wikitext (text_iter : list article) (mt : Tokenizer)
    (num_tokens : option Z) : writer * list article :=
  write_loop mt num_tokens text_iter (mkWriter "" 0 0).

(** ** get_splits *)

Module PyFloat.

(** binary64 *)
Definition prec : Z := 53.
Definition emax : Z := 1024.

(** [float(z)] as [int * float] performs it: the nearest binary64 value,
    ties to even; [None] is the OverflowError of an [int] too large to
    convert. *)
Definition of_int (z : Z) : option spec_float :=
  match binary_normalize prec emax z 0 false with
  | S754_infinity _ => None
  | x => Some x
  end.

(** [x * y] on floats; it never raises. *)
Definition mul (x y : spec_float) : spec_float := SFmul prec emax x y.

(** [int(x)]: the integer part, rounded towards zero; [None] is the
    OverflowError on an infinity and the ValueError on a NaN. *)
Definition to_int (x : spec_float) : option Z :=
  match x with
  | S754_zero _ => Some 0
  | S754_finite s m e =>
      let a := Z.shiftl (Zpos m) e in
      Some (if s then - a else a)
  | S754_infinity _ => None
  | S754_nan => None
  end.

(** The greatest integer below or equal to a finite [x]. *)
Definition floor (x : spec_float) : option Z :=
  match x with
  | S754_zero _ => Some 0
  | S754_finite s m e => Some (Z.shiftl (if s then Zneg m else Zpos m) e)
  | S754_infinity _ => None
  | S754_nan => None
  end.

(** The literal [0.1]: 0x1.999999999999ap-4. *)
Definition tenth : spec_float := S754_finite false 7205759403792794 (-56).

(** The literal [1.0]. *)
Definition one : spec_float := S754_finite false 4503599627370496 (-52).

(** A binary64 value from 0 to 1. *)
Definition is_fraction (x : spec_float) : bool :=
  valid_binary prec emax x
  && SFleb (S754_zero false) x && SFleb x one.

End PyFloat.

(** Lines 132 to 135; [None] when the conversion to or from [float]
    raises. *)
Definition get_splits (tokens_size : Z) (split : spec_float)
    : option (Z * Z * Z) :=
  match PyFloat.of_int tokens_size with
  | None => None
  | Some x =>
      match PyFloat.to_int (PyFloat.mul x split) with
      | None => None
      | Some split =>
          let tokens_size := tokens_size - (2 * split) in
          Some (tokens_size, split, split)
      end
  end.

(** ** main *)

(** The loop of lines 162 to 164 over [zip(splits, token_nums)]: every call
    takes the generator where the call before left it. The result lists the
    files written, by split name. *)
Fixpoint write_splits (mt : Tokenizer) (text_iter : list article)
    (jobs : list (string * Z)) : list (string * writer) * list article :=
  match jobs with
  | [] => ([], text_iter)
  | (split, token_num) :: jobs' =>
      let '(w, text_iter') := write_wikitext text_iter mt (Some token_num) in
      let '(ws, text_iter'') := write_splits mt text_iter' jobs' in
      ((split, w) :: ws, text_iter'')
  end.

(** Lines 146 to 164, on an input the lines before accept: the input
    directory exists (line 141), every line of its files is a record with a
    title and a text (lines 22 to 24), and [tokens] is [args.tokens] read as
    an [int] when given (line 150). The assertion, a malformed record and a
    value that is no integer raise in the code and are outside this
    definition; [None] is [get_splits] raising, the one failure left. *)
Definition main (input_path : tree) (mt : Tokenizer) (tokens : option Z)
    : option (list (string * writer) * list article) :=
  let tokens_size :=
    match tokens with
    | None => findTotalTokens input_path mt
    | Some tokens_size => tokens_size
    end in
  match get_splits tokens_size PyFloat.tenth with
  | None => None
  | Some (train, valid, test) =>
      let token_nums := [train; valid; test] in
      let text_iter := get_texts input_path in
      let splits := ["train"; "valid"; "test"] in
      Some (write_splits mt text_iter (combine splits token_nums))
  end.

(** ** countUnique *)

(** Whether [s] begins with a character that is not whitespace. *)
Definition starts_field (s : string) : bool :=
  match s with
  | "" => false
  | String c _ => negb (isspace c)
  end.

(** [s.split()] without a separator: the maximal runs of characters that
    are not whitespace, in order. *)
Fixpoint split_ws (s : string) : list string :=
  match s with
  | "" => []
  | String c s' =>
      if isspace c then split_ws s'
      else if starts_field s' then
        match split_ws s' with
        | field :: fields => String c field :: fields
        | [] => [String c ""]
        end
      else String c "" :: split_ws s'
  end.

(** [for line in reader] over the text of a file, as the reader decodes it
    (line ends translated to a newline): the lines with their newline, the
    last one without when the text does not end in one. *)
Fixpoint file_lines (s : string) : list string :=
  match s with
  | "" => []
  | String c s' =>
      if Ascii.eqb c NL then nl :: file_lines s'
      else match file_lines s' with
           | line :: lines => String c line :: lines
           | [] => [String c ""]
           end
  end.

(** A [Counter]: the keys in insertion order, each with its count. *)
Definition Counter : Type := list (string * Z).

(** [cnt[elem] = cnt.get(elem, 0) + 1] *)
Fixpoint counter_add (cnt : Counter) (elem : string) : Counter :=
  match cnt with
  | [] => [(elem, 1)]
  | (key, n) :: cnt' =>
      if String.eqb key elem then (key, n + 1) :: cnt'
      else (key, n) :: counter_add cnt' elem
  end.

(** [cnt.update(iterable)] *)
Definition counter_update (cnt : Counter) (iterable : list string) : Counter :=
  fold_left counter_add iterable cnt.

(** The [Counter] of lines 32 to 35, on the text of the file. *)
Definition count_tokens (reader : string) : Counter :=
  fold_left (fun cnt line => counter_update cnt (split_ws (strip line)))
            (file_lines reader) [].

(** Lines 31 to 36, on the text of the file at [filePath]. *)
Definition countUnique (reader : string) : Z := len (count_tokens reader).

(** ** wiki2csv *)

(** What a call has done so far: the rows handed to [csv.writer], the
    running total, and the progress lines printed, each as the pair
    [(i, total_num_tokens)] it reports. *)
Record csv_writer : Type := mkCsv {
  csv_rows : list (list string);
  csv_total : Z;
  csv_progress : list (Z * Z)
}.

(** The body of the loop over the paragraphs, lines 109 to 117. *)
Definition csv_paragraph_step (acc : Z * list string) (paragraph : string)
    : Z * list string :=
  let '(num_tokens_article, tokenized_paragraphs) := acc in
  let tokenized := strip paragraph in
  let tokens := tokens_of tokenized in
  (num_tokens_article + (len tokens + 1),
   (tokenized_paragraphs ++ [tokenized])%list).

(** The body of the loop over the texts, lines 104 to 129, at index [i];
    the boolean is true on [break]. *)
Definition csv_article (num_tokens : option Z) (st : csv_writer) (i : Z)
    (text : string) : csv_writer * bool :=
  let '(num_tokens_article, tokenized_paragraphs) :=
    fold_left csv_paragraph_step (split NL text) (0, []) in
  if num_tokens_article <? 100 then (st, false)
  else
    let rows := (csv_rows st ++ [[join nl tokenized_paragraphs]])%list in
    let total := csv_total st + (num_tokens_article + 1) in
    if match num_tokens with
       | Some budget => total >? budget
       | None => false
       end
    then (mkCsv rows total (csv_progress st), true)
    else if (i mod 100000 =? 0) && (i >? 0)
    then (mkCsv rows total (csv_progress st ++ [(i, total)])%list, false)
    else (mkCsv rows total (csv_progress st), false).

(** The [for] loop of line 103 over [enumerate(text_iter)]. *)
Fixpoint csv_loop (num_tokens : option Z) (text_iter : list string) (i : Z)
    (st : csv_writer) : csv_writer * list string :=
  match text_iter with
  | [] => (st, [])
  | text :: text_iter' =>
      let '(st', break) := csv_article num_tokens st i text in
      if break then (st', text_iter')
      else csv_loop num_tokens text_iter' (i + 1) st'
  end.

(** [wiki2csv(file_path, text_iter, num_tokens)]; [text_iter] yields the
    texts themselves. *)
Definition wiki2csv (text_iter : list string) (num_tokens : option Z)
    : csv_writer * list string :=
  csv_loop num_tokens text_iter 0 (mkCsv [] 0 []).

(** ** Notions the properties are stated with *)

(** [num_tokens_article] as [write_wikitext] has it at line 82. *)
Definition token_count (mt : Tokenizer) (a : article) : Z :=
  fst (tokenize_article mt (text a)).

(** [tokenized_paragraphs] as [write_wikitext] has it at line 82. *)
Definition tokenized_paragraphs (mt : Tokenizer) (a : article) : list string :=
  snd (tokenize_article mt (text a)).

(** The article passes the test of line 82. *)
Definition accepted (mt : Tokenizer) (a : article) : bool :=
  negb (token_count mt a <? 100).

Definition sum (l : list Z) : Z := fold_right Z.add 0 l.

(** The strings of a list, one after the other. *)
Fixpoint cat (l : list string) : string :=
  match l with
  | [] => ""
  | s :: l' => s ++ cat l'
  end.

(** The block of an article in an output file: the header line, then one
    line per tokenized paragraph. *)
Definition document (mt : Tokenizer) (a : article) : string :=
  ("= " ++ strip (title a) ++ " =") ++ nl
   ++ cat (map (fun tokenized => tokenized ++ nl) (tokenized_paragraphs mt a)).

(** The blocks of a sequence of articles. *)
Definition corpus (mt : Tokenizer) (l : list article) : string :=
  cat (map (document mt) l).

(** What the accepted articles of a sequence add to [total_num_tokens]. *)
Definition budget_used (mt : Tokenizer) (l : list article) : Z :=
  sum (map (fun a => token_count mt a + 1) (filter (accepted mt) l)).

(** The test of line 92 on the running total. *)
Definition over_budget (num_tokens : option Z) (total : Z) : bool :=
  match num_tokens with
  | Some budget => total >? budget
  | None => false
  end.

(** The number of maximal runs of characters other than the space in [s];
    [in_word] tells that the character before [s] belongs to a run. *)
Fixpoint count_words (in_word : bool) (s : string) : Z :=
  match s with
  | "" => 0
  | String c s' =>
      if Ascii.eqb c SP then count_words false s'
      else (if in_word then 0 else 1) + count_words true s'
  end.

(** [len(s.split())]: the number of maximal runs of characters that are
    not whitespace. *)
Fixpoint count_fields (in_field : bool) (s : string) : Z :=
  match s with
  | "" => 0
  | String c s' =>
      if isspace c then count_fields false s'
      else (if in_field then 0 else 1) + count_fields true s'
  end.

(** The space is the only whitespace of [s]. *)
Fixpoint plain_spaces (s : string) : bool :=
  match s with
  | "" => true
  | String c s' => (negb (isspace c) || Ascii.eqb c SP) && plain_spaces s'
  end.

(** The token count of an article as the data model words it: over the
    paragraphs, the number of tokens of the tokenized paragraph, plus one. *)
Definition token_count_spec (mt : Tokenizer) (a : article) : Z :=
  sum (map (fun paragraph =>
              count_words false (tokenize_str (strip paragraph)) + 1)
           (split NL (text a))).

(** Only spaces. *)
Fixpoint blank (s : string) : bool :=
  match s with
  | "" => true
  | String c s' => Ascii.eqb c SP && blank s'
  end.

(** The lines of the source in file order, before the test of line 25. *)
Definition lines_of (root : tree) : list article :=
  List.concat (List.concat root).

(** The sum the scanner is meant to return: over the articles that
    [write_wikitext] accepts, the token count it computes. *)
Definition accepted_tokens (mt : Tokenizer) (root : tree) : Z :=
  sum (map (token_count mt) (filter (accepted mt) (get_texts root))).

(** A run of the loop from [st] over [text_iter] that takes the articles
    [consumed], leaves the generator at [rest] and the writer at [st']. *)
Record run (mt : Tokenizer) (num_tokens : option Z) (text_iter : list article)
    (st : writer) (consumed rest : list article) (st' : writer) : Prop := {
  run_split : text_iter = (consumed ++ rest)%list;
  run_out : f_out st' = f_out st ++ corpus mt (filter (accepted mt) consumed);
  run_count : count st' = count st + len (filter (accepted mt) consumed);
  run_total : total_num_tokens st' = total_num_tokens st + budget_used mt consumed;
  (* no accepted article before the last one taken has carried the total
     over the budget *)
  run_under : forall pre a post,
    consumed = (pre ++ a :: post)%list -> accepted mt a = true -> post <> [] ->
    over_budget num_tokens
      (total_num_tokens st + budget_used mt (pre ++ [a])) = false;
  (* the loop leaves early only after an accepted article that has *)
  run_stop : rest = [] \/
    exists pre a, consumed = (pre ++ [a])%list /\ accepted mt a = true /\
      over_budget num_tokens (total_num_tokens st') = true
}.

(** What the scanner adds for one article: the token counts of the
    paragraphs that have 99 tokens or more on their own. *)
Definition scanned (mt : Tokenizer) (a : article) : Z :=
  sum (map (fun p => len (tokenize (strip p)))
           (filter (fun p => len (tokenize (strip p)) + 1 >=? 100)
                   (split NL (text a)))).

(** The files of the splits, one after the other. *)
Definition outputs (files : list (string * writer)) : string :=
  cat (map (fun file => f_out (snd file)) files).

(** C2 as stated: the three outputs together are the blocks of all the
    accepted articles of the source. *)
Definition exact_once (mt : Tokenizer) (source : list article)
    (train valid test : Z) : Prop :=
  outputs (fst (write_splits mt source
                  [("train", train); ("valid", valid); ("test", test)])) =
  corpus mt (filter (accepted mt) source).

(** Nothing but whitespace. *)
Fixpoint all_space (s : string) : bool :=
  match s with
  | "" => true
  | String c s' => isspace c && all_space s'
  end.

(** Whether [c] occurs in [s]. *)
Fixpoint has_char (c : ascii) (s : string) : bool :=
  match s with
  | "" => false
  | String d s' => Ascii.eqb d c || has_char c s'
  end.

(** The number of newlines of [s]. *)
Fixpoint newlines (s : string) : Z :=
  match s with
  | "" => 0
  | String c s' => (if Ascii.eqb c NL then 1 else 0) + newlines s'
  end.

(** No tokenization: the joined form of a paragraph is the paragraph. *)
Definition plain_tokenizer : Tokenizer :=
  mkTokenizer tokens_of (fun s => s).

(** [num_tokens_article] as [wiki2csv] has it at line 119. *)
Definition csv_token_count (text : string) : Z :=
  fst (fold_left csv_paragraph_step (split NL text) (0, [])).

(** The field [wiki2csv] writes for a text, line 123. *)
Definition csv_field (text : string) : string :=
  join nl (snd (fold_left csv_paragraph_step (split NL text) (0, []))).

(** The tokens of the tokenized paragraphs of an article. *)
Definition body_tokens (mt : Tokenizer) (a : article) : Z :=
  sum (map (fun tokenized => len (tokens_of tokenized))
           (tokenized_paragraphs mt a)).

(** The header and the tokenized paragraphs of the article hold no
    newline. *)
Definition one_line (mt : Tokenizer) (a : article) : bool :=
  negb (has_char NL (strip (title a)))
  && forallb (fun tokenized => negb (has_char NL tokenized))
             (tokenized_paragraphs mt a).

(** On the paragraphs of the articles that [get_texts] yields, the list of
    tokens of the tokenizer is as long as the tokens of its joined form. *)
Definition consistent (mt : Tokenizer) (root : tree) : bool :=
  forallb (fun a =>
             forallb (fun p =>
                        len (tokenize (strip p))
                        =? len (tokens_of (tokenize_str (strip p))))
                     (split NL (text a)))
          (get_texts root).

(** ** Inputs the code is evaluated on *)

(** A tokenizer that cuts at spaces, as [MosesTokenizer] does on plain
    lower-case words; the joined form is the tokens with one space between
    them. *)
Definition words_tokenizer : Tokenizer :=
  mkTokenizer tokens_of (fun s => join " " (tokens_of s)).

(** [n] one-letter words on one line. *)
Definition words (n : nat) : string := join " " (List.repeat "w" n).

(** A text of [n] empty paragraphs, [n >= 1]. *)
Definition empty_paragraphs (n : nat) : string := repeat nl (n - 1).

(** The record of the counterexample to C3: 100 words, and a title that is
    the same words followed by a space. *)
Definition spaced_title_record : article :=
  mkArticle (words 100 ++ " ") (words 100).

(** Four accepted articles of 99 words each. *)
Definition four_articles : list article :=
  [mkArticle "A" (words 99); mkArticle "B" (words 99);
   mkArticle "C" (words 99); mkArticle "D" (words 99)].

(** An article of two paragraphs of 60 words. *)
Definition two_paragraphs : article :=
  mkArticle "T" (words 60 ++ nl ++ words 60).

(** * Properties *)

(** ** Strings *)

Lemma append_assoc (s t u : string) : (s ++ t) ++ u = s ++ (t ++ u).
Proof.
  induction s as [|c s IH]; simpl; [reflexivity | now rewrite IH].
Qed.

Lemma append_empty_r (s : string) : s ++ "" = s.
Proof.
  induction s as [|c s IH]; simpl; [reflexivity | now rewrite IH].
Qed.

Lemma append_length (s t : string) :
  String.length (s ++ t) = (String.length s + String.length t)%nat.
Proof.
  induction s as [|c s IH]; simpl; [reflexivity | now rewrite IH].
Qed.

(** Appending something that is not empty changes a string. *)
Lemma append_self_neq (s t : string) : t <> "" -> s <> s ++ t.
Proof.
  intros Ht H. apply (f_equal String.length) in H.
  rewrite append_length in H. destruct t as [|c t]; [easy | simpl in H; lia].
Qed.

Lemma cat_app (l l' : list string) : cat (l ++ l') = cat l ++ cat l'.
Proof.
  induction l as [|s l IH]; simpl; [reflexivity |].
  now rewrite IH, append_assoc.
Qed.

Lemma split_not_nil (sep : ascii) (s : string) : split sep s <> [].
Proof.
  destruct s as [|c s]; simpl; [easy |].
  destruct (Ascii.eqb c sep); [easy |].
  destruct (split sep s); easy.
Qed.

(** [split] is the inverse of [join]: the fields of [s], put together
    again with the separator, are [s]. *)
Lemma join_split (sep : ascii) (s : string) :
  join (String sep "") (split sep s) = s.
Proof.
  induction s as [|c s IH]; [reflexivity |].
  simpl. destruct (Ascii.eqb_spec c sep) as [->|Hc].
  - pose proof (split_not_nil sep s) as Hn.
    destruct (split sep s) as [|f fs]; [easy |].
    simpl in *. now rewrite IH.
  - pose proof (split_not_nil sep s) as Hn.
    destruct (split sep s) as [|f fs]; [easy |].
    destruct fs as [|g fs]; simpl in *; now rewrite <- IH.
Qed.

Lemma sum_app (l l' : list Z) : sum (l ++ l') = sum l + sum l'.
Proof.
  induction l as [|x l IH]; simpl; [reflexivity | rewrite IH; lia].
Qed.

(** ** The token count of an article *)

Lemma paragraphs_fold (mt : Tokenizer) (ps : list string) (n : Z)
    (done : list string) :
  fold_left (paragraph_step mt) ps (n, done) =
  (n + sum (map (fun p => len (tokens_of (tokenize_str (strip p))) + 1) ps),
   (done ++ map (fun p => tokenize_str (strip p)) ps)%list).
Proof.
  revert n done. induction ps as [|p ps IH]; intros n done; simpl.
  - now rewrite Z.add_0_r, app_nil_r.
  - rewrite IH. f_equal; [lia | now rewrite <- app_assoc].
Qed.

Lemma tokenize_article_eq (mt : Tokenizer) (text : string) :
  tokenize_article mt text =
  (sum (map (fun p => len (tokens_of (tokenize_str (strip p))) + 1)
            (split NL text)),
   map (fun p => tokenize_str (strip p)) (split NL text)).
Proof.
  unfold tokenize_article. now rewrite paragraphs_fold.
Qed.

(** The tokens the code counts are the runs of characters between
    spaces. *)
Lemma count_words_tokens (s : string) (in_word : bool) :
  count_words in_word s =
  len (tokens_of s)
  - (if in_word && negb (is_empty (hd "" (split SP s))) then 1 else 0).
Proof.
  revert in_word. unfold tokens_of, len.
  induction s as [|c s IH]; intros in_word; simpl.
  - now rewrite andb_false_r.
  - destruct (Ascii.eqb c SP); simpl.
    + rewrite andb_false_r, (IH false). simpl. lia.
    + rewrite (IH true). pose proof (split_not_nil SP s) as Hn.
      destruct (split SP s) as [|f fs]; [easy |].
      cbn [filter hd is_empty negb andb].
      destruct (is_empty f), in_word; cbn [negb andb List.length];
        rewrite ?Nat2Z.inj_succ; lia.
Qed.

Lemma len_tokens_of (s : string) : len (tokens_of s) = count_words false s.
Proof.
  rewrite count_words_tokens. simpl. lia.
Qed.

(** On the output of a tokenizer that leaves no whitespace but spaces, the
    tokens counted are the whitespace-delimited fields. *)
Lemma count_words_fields (s : string) (b : bool) :
  plain_spaces s = true -> count_fields b s = count_words b s.
Proof.
  revert b. induction s as [|c s IH]; intros b Hs; [reflexivity |].
  cbn [plain_spaces] in Hs. apply andb_true_iff in Hs as [Hc Hs].
  cbn [count_fields count_words].
  destruct (Ascii.eqb_spec c SP) as [-> | Hne].
  - change (isspace SP) with true. cbn iota. now apply IH.
  - rewrite orb_false_r in Hc. apply negb_true_iff in Hc. rewrite Hc.
    now rewrite IH.
Qed.

Example strip_example :
  strip (String NL "  a b " ++ nl) = "a b" /\ strip (nl ++ "  ") = "" /\
  strip "a" = "a".
Proof. repeat split. Qed.

Example split_example :
  split NL ("a" ++ nl ++ nl ++ "b c" ++ nl) = ["a"; ""; "b c"; ""] /\
  split NL "" = [""] /\
  tokens_of " a  b " = ["a"; "b"].
Proof. repeat split. Qed.

Lemma sum_map_succ {A : Type} (f : A -> Z) (l : list A) :
  sum (map (fun x => f x + 1) l) = sum (map f l) + len l.
Proof.
  unfold len. induction l as [|x l IH]; [reflexivity |].
  cbn [map sum fold_right List.length]. fold (sum (map (fun x => f x + 1) l)).
  fold (sum (map f l)). rewrite IH. lia.
Qed.

(** ** One article *)

Lemma write_paragraphs_eq (out : string) (tps : list string) :
  write_paragraphs out tps = out ++ cat (map (fun t => t ++ nl) tps).
Proof.
  unfold write_paragraphs. revert out.
  induction tps as [|t tps IH]; intros out; simpl.
  - now rewrite append_empty_r.
  - now rewrite IH, append_assoc.
Qed.

Lemma write_article_eq (mt : Tokenizer) (num_tokens : option Z) (st : writer)
    (a : article) :
  write_article mt num_tokens st a =
  if accepted mt a then
    (mkWriter (f_out st ++ document mt a) (count st + 1)
              (total_num_tokens st + (token_count mt a + 1)),
     over_budget num_tokens (total_num_tokens st + (token_count mt a + 1)))
  else (st, false).
Proof.
  unfold write_article, accepted, document, token_count, tokenized_paragraphs.
  destruct (tokenize_article mt (text a)) as [n tps]; cbn [fst snd].
  destruct (n <? 100); cbn [negb]; [reflexivity |].
  rewrite write_paragraphs_eq, !append_assoc. reflexivity.
Qed.

Lemma accepted_ge (mt : Tokenizer) (a : article) :
  accepted mt a = true <-> 100 <= token_count mt a.
Proof.
  unfold accepted. destruct (Z.ltb_spec (token_count mt a) 100); simpl;
    split; intros; try easy; lia.
Qed.

Lemma accepted_lt (mt : Tokenizer) (a : article) :
  accepted mt a = false <-> token_count mt a < 100.
Proof.
  unfold accepted. destruct (Z.ltb_spec (token_count mt a) 100); simpl;
    split; intros; try easy; lia.
Qed.

Lemma document_not_empty (mt : Tokenizer) (a : article) : document mt a <> "".
Proof.
  unfold document. simpl. easy.
Qed.

Lemma budget_used_cons (mt : Tokenizer) (a : article) (l : list article) :
  budget_used mt (a :: l) =
  if accepted mt a then token_count mt a + 1 + budget_used mt l
  else budget_used mt l.
Proof.
  unfold budget_used. simpl. now destruct (accepted mt a).
Qed.

Lemma budget_used_app (mt : Tokenizer) (l l' : list article) :
  budget_used mt (l ++ l') = budget_used mt l + budget_used mt l'.
Proof.
  unfold budget_used. now rewrite filter_app, map_app, sum_app.
Qed.

Lemma corpus_app (mt : Tokenizer) (l l' : list article) :
  corpus mt (l ++ l') = corpus mt l ++ corpus mt l'.
Proof.
  unfold corpus. now rewrite map_app, cat_app.
Qed.

(** ** The loop over the generator *)

Lemma write_loop_run (mt : Tokenizer) (num_tokens : option Z)
    (text_iter : list article) (st : writer) :
  exists consumed,
    run mt num_tokens text_iter st consumed
        (snd (write_loop mt num_tokens text_iter st))
        (fst (write_loop mt num_tokens text_iter st)).
Proof.
  revert st. induction text_iter as [|a it IH]; intros st.
  - exists []. split; simpl; try reflexivity.
    + now rewrite append_empty_r.
    + unfold len. simpl. lia.
    + unfold budget_used. simpl. lia.
    + intros [|? ?] ? ? ?; discriminate.
    + now left.
  - cbn [write_loop]. rewrite write_article_eq.
    destruct (accepted mt a) eqn:Ha.
    + set (total := total_num_tokens st + (token_count mt a + 1)).
      destruct (over_budget num_tokens total) eqn:Hover.
      * exists [a]. split; cbn [fst snd f_out count total_num_tokens filter].
        -- reflexivity.
        -- rewrite Ha. unfold corpus. simpl. now rewrite append_empty_r.
        -- rewrite Ha. reflexivity.
        -- rewrite budget_used_cons, Ha. unfold budget_used. simpl.
           subst total. lia.
        -- intros [|x [|y pre]] b post E Hb Hp; inversion E; subst; easy.
        -- right. exists [], a. now repeat split.
      * destruct (IH (mkWriter (f_out st ++ document mt a) (count st + 1) total))
          as [consumed [E Hout Hcount Htotal Hunder Hstop]].
        cbn [f_out count total_num_tokens] in *.
        exists (a :: consumed). split; cbn [filter]; rewrite ?Ha.
        -- simpl. now rewrite <- E.
        -- rewrite Hout. unfold corpus. simpl. now rewrite append_assoc.
        -- rewrite Hcount. unfold len. cbn [List.length]. lia.
        -- rewrite Htotal, budget_used_cons, Ha. subst total. lia.
        -- intros [|x pre] b post E' Hb Hp; inversion E'; subst.
           ++ simpl. rewrite budget_used_cons, Ha. unfold budget_used.
              simpl. rewrite Z.add_0_r. exact Hover.
           ++ specialize (Hunder pre b post eq_refl Hb Hp).
              simpl. rewrite budget_used_cons, Ha.
              rewrite <- Hunder. f_equal. subst total. lia.
        -- destruct Hstop as [Hr | (pre & b & -> & Hb & Ho)]; [now left |].
           right. exists (a :: pre), b. now repeat split.
    + destruct (IH st) as [consumed [E Hout Hcount Htotal Hunder Hstop]].
      exists (a :: consumed). split; cbn [filter]; rewrite ?Ha.
      * simpl. now rewrite <- E.
      * exact Hout.
      * exact Hcount.
      * now rewrite budget_used_cons, Ha.
      * intros [|x pre] b post E' Hb Hp; inversion E'; subst.
        -- congruence.
        -- simpl. rewrite budget_used_cons, Ha. now apply (Hunder pre b post).
      * destruct Hstop as [Hr | (pre & b & -> & Hb & Ho)]; [now left |].
        right. exists (a :: pre), b. now repeat split.
Qed.

(** ** Claims on the writer *)

(** C5. The token count [write_wikitext] computes for an article is the sum,
    over the paragraphs of its text (the fields between newlines), of the
    number of non-empty space-delimited tokens of the tokenized paragraph
    plus one. The one is added per paragraph, also for a paragraph without
    tokens: the count is the number of tokens of the article plus its number
    of paragraphs. *)
Theorem token_count_per_paragraph (mt : Tokenizer) (a : article) :
  token_count mt a = token_count_spec mt a /\
  token_count mt a =
    sum (map (fun p => count_words false (tokenize_str (strip p)))
             (split NL (text a)))
    + len (split NL (text a)).
Proof.
  assert (H : token_count mt a = token_count_spec mt a).
  { unfold token_count, token_count_spec. rewrite tokenize_article_eq.
    cbn [fst]. f_equal. apply map_ext. intros p. now rewrite len_tokens_of. }
  split; [exact H |].
  rewrite H. unfold token_count_spec. apply sum_map_succ.
Qed.

(** C4. An article taken by [write_wikitext] is written to the output file
    if and only if its token count is at least 100: the body of the loop
    appends the block of the article to [f_out] exactly in that case and
    leaves the writer as it was otherwise. A count of 99 is excluded, a
    count of 100 is included. Over a whole call, the file holds the blocks
    of exactly the taken articles with a count of at least 100. *)
Theorem acceptance_filter (mt : Tokenizer) (num_tokens : option Z) :
  (forall (st : writer) (a : article),
     let st' := fst (write_article mt num_tokens st a) in
     (100 <= token_count mt a <-> f_out st' = f_out st ++ document mt a) /\
     (token_count mt a < 100 <-> st' = st) /\
     (token_count mt a = 99 -> f_out st' = f_out st) /\
     (token_count mt a = 100 -> f_out st' = f_out st ++ document mt a)) /\
  (forall text_iter : list article,
     let r := write_wikitext text_iter mt num_tokens in
     exists consumed,
       text_iter = (consumed ++ snd r)%list /\
       f_out (fst r) =
         corpus mt (filter (fun a => 100 <=? token_count mt a) consumed)).
Proof.
  split.
  - intros st a st'. subst st'. rewrite write_article_eq.
    destruct (accepted mt a) eqn:Ha; cbn [fst f_out].
    + apply accepted_ge in Ha. repeat split; intros; try lia; try reflexivity.
      exfalso. apply (append_self_neq (f_out st) (document mt a)).
      * apply document_not_empty.
      * now rewrite <- H at 1.
    + apply accepted_lt in Ha. repeat split; intros; try lia; try reflexivity.
      exfalso. apply (append_self_neq (f_out st) (document mt a)).
      * apply document_not_empty.
      * assumption.
  - intros text_iter r. subst r. unfold write_wikitext.
    destruct (write_loop_run mt num_tokens text_iter (mkWriter "" 0 0))
      as [consumed [E Hout _ _ _ _]].
    exists consumed. split; [exact E |].
    rewrite Hout. cbn [f_out String.append]. f_equal. apply filter_ext.
    intros a. unfold accepted.
    destruct (Z.ltb_spec (token_count mt a) 100),
      (Z.leb_spec 100 (token_count mt a)); simpl; try reflexivity; lia.
Qed.

(** C6. With a budget: a rejected article (count below 100) changes nothing,
    no output and no budget, and the loop goes on with the next article; an
    accepted article is written, [token_count + 1] is added to
    [total_num_tokens] and 1 to [count], and the loop stops after it exactly
    when the new total is greater than the budget, leaving the generator
    after that article. Over a whole call: the call takes a prefix of the
    generator and leaves the rest for the next split; no accepted article
    before the last one taken has carried the total over the budget; and
    when articles are left, the last one taken was accepted and the total
    is over the budget. *)
Theorem budget_accounting (mt : Tokenizer) (budget : Z) :
  (forall (a : article) (text_iter : list article) (st : writer),
     let st' := mkWriter (f_out st ++ document mt a) (count st + 1)
                         (total_num_tokens st + (token_count mt a + 1)) in
     (token_count mt a < 100 ->
        write_loop mt (Some budget) (a :: text_iter) st =
        write_loop mt (Some budget) text_iter st) /\
     (100 <= token_count mt a -> total_num_tokens st' > budget ->
        write_loop mt (Some budget) (a :: text_iter) st = (st', text_iter)) /\
     (100 <= token_count mt a -> total_num_tokens st' <= budget ->
        write_loop mt (Some budget) (a :: text_iter) st =
        write_loop mt (Some budget) text_iter st')) /\
  (forall text_iter : list article,
     let r := write_wikitext text_iter mt (Some budget) in
     exists consumed,
       text_iter = (consumed ++ snd r)%list /\
       total_num_tokens (fst r) = budget_used mt consumed /\
       count (fst r) = len (filter (accepted mt) consumed) /\
       (forall pre a post,
          consumed = (pre ++ a :: post)%list -> accepted mt a = true ->
          post <> [] -> budget_used mt (pre ++ [a]) <= budget) /\
       (snd r = [] \/
        exists pre a, consumed = (pre ++ [a])%list /\
          100 <= token_count mt a /\ total_num_tokens (fst r) > budget)).
Proof.
  split.
  - intros a text_iter st st'. subst st'. cbn [write_loop total_num_tokens].
    rewrite write_article_eq. unfold over_budget.
    repeat split; intros.
    + apply accepted_lt in H. now rewrite H.
    + assert (Ha : accepted mt a = true) by now apply accepted_ge.
      rewrite Ha.
      destruct (Z.gtb_spec (total_num_tokens st + (token_count mt a + 1)) budget);
        [reflexivity | lia].
    + assert (Ha : accepted mt a = true) by now apply accepted_ge.
      rewrite Ha.
      destruct (Z.gtb_spec (total_num_tokens st + (token_count mt a + 1)) budget);
        [lia | reflexivity].
  - intros text_iter r. subst r. unfold write_wikitext.
    destruct (write_loop_run mt (Some budget) text_iter (mkWriter "" 0 0))
      as [consumed [E _ Hcount Htotal Hunder Hstop]].
    cbn [count total_num_tokens over_budget] in *.
    exists consumed. repeat split.
    + exact E.
    + rewrite Htotal. lia.
    + rewrite Hcount. lia.
    + intros pre a post Hc Ha Hp. specialize (Hunder pre a post Hc Ha Hp).
      destruct (Z.gtb_spec (0 + budget_used mt (pre ++ [a])) budget);
        [discriminate | lia].
    + destruct Hstop as [Hr | (pre & a & Hc & Ha & Ho)]; [now left | right].
      exists pre, a. repeat split; [exact Hc | now apply accepted_ge |].
      now apply Z.gtb_gt.
Qed.

(** C9. A budget that is zero or negative is no error: the call returns.
    When the generator yields no accepted article, nothing is written and the
    generator is exhausted; otherwise the call writes the first accepted
    article, whose [token_count + 1] is at least 101 and so over the budget,
    and stops there. *)
Theorem non_positive_budget (mt : Tokenizer) (budget : Z)
    (text_iter : list article) (Hb : budget <= 0) :
  ((forall a, In a text_iter -> accepted mt a = false) ->
     write_wikitext text_iter mt (Some budget) = (mkWriter "" 0 0, [])) /\
  (forall pre a post,
     text_iter = (pre ++ a :: post)%list ->
     (forall b, In b pre -> accepted mt b = false) ->
     accepted mt a = true ->
     write_wikitext text_iter mt (Some budget) =
       (mkWriter (document mt a) 1 (token_count mt a + 1), post) /\
     101 <= token_count mt a + 1 /\ token_count mt a + 1 > budget).
Proof.
  unfold write_wikitext.
  assert (Hskip : forall pre rest st,
            (forall b, In b pre -> accepted mt b = false) ->
            write_loop mt (Some budget) (pre ++ rest) st =
            write_loop mt (Some budget) rest st).
  { induction pre as [|b pre IH]; intros rest st Hpre; [reflexivity |].
    cbn [app write_loop]. rewrite write_article_eq, (Hpre b (or_introl eq_refl)).
    apply IH. intros c Hc. apply Hpre. now right. }
  split.
  - intros Hnone. rewrite <- (app_nil_r text_iter), (Hskip _ [] _ Hnone).
    reflexivity.
  - intros pre a post -> Hpre Ha. pose proof (proj1 (accepted_ge mt a) Ha) as Hge.
    repeat split; try lia.
    rewrite (Hskip pre (a :: post) _ Hpre). cbn [write_loop].
    rewrite write_article_eq, Ha. cbn [f_out count total_num_tokens over_budget].
    destruct (Z.gtb_spec (0 + (token_count mt a + 1)) budget); [| lia].
    reflexivity.
Qed.

Lemma tokens_of_nil_blank (s : string) : tokens_of s = [] <-> blank s = true.
Proof.
  unfold tokens_of. induction s as [|c s IH]; simpl; [easy |].
  destruct (Ascii.eqb c SP); simpl; [exact IH |].
  pose proof (split_not_nil SP s) as Hn.
  destruct (split SP s) as [|f fs]; easy.
Qed.

(** C10. When every paragraph of an article tokenizes to a string without
    tokens, the token count is the number of paragraphs; with 100 paragraphs
    or more the article is accepted, and what is written is the header line
    followed by one line per paragraph that holds nothing but spaces. *)
Theorem tokenless_article (mt : Tokenizer) (a : article)
    (Hnone : forallb (fun p => len (tokens_of (tokenize_str (strip p))) =? 0)
                     (split NL (text a)) = true) :
  token_count mt a = len (split NL (text a)) /\
  (100 <= len (split NL (text a)) ->
     accepted mt a = true /\
     forall num_tokens st,
       f_out (fst (write_article mt num_tokens st a)) =
       f_out st ++ document mt a) /\
  document mt a =
    ("= " ++ strip (title a) ++ " =") ++ nl
    ++ cat (map (fun line => line ++ nl) (tokenized_paragraphs mt a)) /\
  List.length (tokenized_paragraphs mt a) = List.length (split NL (text a)) /\
  Forall (fun line => blank line = true) (tokenized_paragraphs mt a).
Proof.
  rewrite forallb_forall in Hnone.
  assert (Hcount : token_count mt a = len (split NL (text a))).
  { unfold token_count. rewrite tokenize_article_eq. cbn [fst].
    rewrite sum_map_succ.
    assert (Hz : forall l : list string,
               (forall p, In p l ->
                  (len (tokens_of (tokenize_str (strip p))) =? 0) = true) ->
               sum (map (fun p => len (tokens_of (tokenize_str (strip p)))) l)
               = 0).
    { induction l as [|p l IH]; intros Hl; [reflexivity |].
      simpl. rewrite IH by (intros q Hq; apply Hl; now right).
      pose proof (Hl p (or_introl eq_refl)) as Hp.
      apply Z.eqb_eq in Hp. lia. }
    rewrite (Hz _ Hnone). lia. }
  split; [exact Hcount |]. split; [| split; [reflexivity | split]].
  - intros Hlen. assert (Ha : accepted mt a = true)
      by (apply accepted_ge; lia).
    split; [exact Ha |]. intros num_tokens st.
    now rewrite write_article_eq, Ha.
  - unfold tokenized_paragraphs. rewrite tokenize_article_eq. cbn [snd].
    apply length_map.
  - unfold tokenized_paragraphs. rewrite tokenize_article_eq. cbn [snd].
    apply Forall_forall. intros line Hline. apply in_map_iff in Hline.
    destruct Hline as (p & <- & Hp). apply tokens_of_nil_blank.
    specialize (Hnone p Hp). apply Z.eqb_eq in Hnone. unfold len in Hnone.
    destruct (tokens_of (tokenize_str (strip p))); [reflexivity |].
    simpl in Hnone. lia.
Qed.

(** C8. Three articles with token counts 150, 50 and 200, and the budgets
    250, 50 and 50: the train call writes the first article (total 151, not
    over 250, so it goes on), drops the second, writes the third (total 352,
    over 250) and stops; the generator is then exhausted, and the valid and
    test calls write nothing and count no document. *)
Theorem three_articles_scenario (mt : Tokenizer) (a1 a2 a3 : article)
    (H1 : token_count mt a1 = 150) (H2 : token_count mt a2 = 50)
    (H3 : token_count mt a3 = 200) :
  write_article mt (Some 250) (mkWriter "" 0 0) a1 =
    (mkWriter (document mt a1) 1 151, false) /\
  write_wikitext [a1; a2; a3] mt (Some 250) =
    (mkWriter (document mt a1 ++ document mt a3) 2 352, []) /\
  write_splits mt [a1; a2; a3] [("train", 250); ("valid", 50); ("test", 50)] =
    ([("train", mkWriter (document mt a1 ++ document mt a3) 2 352);
      ("valid", mkWriter "" 0 0);
      ("test", mkWriter "" 0 0)], []).
Proof.
  assert (A1 : accepted mt a1 = true) by (apply accepted_ge; lia).
  assert (A2 : accepted mt a2 = false) by (apply accepted_lt; lia).
  assert (A3 : accepted mt a3 = true) by (apply accepted_ge; lia).
  assert (Hw : write_wikitext [a1; a2; a3] mt (Some 250) =
               (mkWriter (document mt a1 ++ document mt a3) 2 352, [])).
  { unfold write_wikitext. cbn [write_loop].
    rewrite !write_article_eq, A1, H1. cbn.
    rewrite !write_article_eq, A2.
    rewrite !write_article_eq, A3, H3. cbn. reflexivity. }
  repeat split.
  - rewrite write_article_eq, A1, H1. reflexivity.
  - exact Hw.
  - cbn [write_splits]. rewrite Hw. reflexivity.
Qed.

(** The boundary of the filter on two one-paragraph articles: 98 words
    count 99 and are dropped, 99 words count 100 and are written. *)
Example count_99_dropped :
  token_count words_tokenizer (mkArticle "A" (words 98)) = 99 /\
  write_wikitext [mkArticle "A" (words 98)] words_tokenizer None =
    (mkWriter "" 0 0, []).
Proof. vm_compute. split; reflexivity. Qed.

Example count_100_written :
  token_count words_tokenizer (mkArticle "A" (words 99)) = 100 /\
  write_wikitext [mkArticle "A" (words 99)] words_tokenizer None =
    (mkWriter ("= A =" ++ nl ++ words 99 ++ nl) 1 101, []).
Proof. vm_compute. split; reflexivity. Qed.

Lemma three_articles_scenario_witness :
  let a1 := mkArticle "A" (words 149) in
  let a2 := mkArticle "B" (words 49) in
  let a3 := mkArticle "C" (words 199) in
  token_count words_tokenizer a1 = 150 /\
  token_count words_tokenizer a2 = 50 /\
  token_count words_tokenizer a3 = 200 /\
  write_splits words_tokenizer [a1; a2; a3]
    [("train", 250); ("valid", 50); ("test", 50)] =
    ([("train",
       mkWriter (document words_tokenizer a1 ++ document words_tokenizer a3)
                2 352);
      ("valid", mkWriter "" 0 0);
      ("test", mkWriter "" 0 0)], []).
Proof.
  intros a1 a2 a3.
  assert (H1 : token_count words_tokenizer a1 = 150) by (vm_compute; reflexivity).
  assert (H2 : token_count words_tokenizer a2 = 50) by (vm_compute; reflexivity).
  assert (H3 : token_count words_tokenizer a3 = 200) by (vm_compute; reflexivity).
  split; [exact H1 | split; [exact H2 | split; [exact H3 |]]].
  exact (proj2 (proj2 (three_articles_scenario words_tokenizer a1 a2 a3 H1 H2 H3))).
Defined.

Lemma non_positive_budget_witness :
  let short := mkArticle "S" (words 5) in
  let first := mkArticle "A" (words 99) in
  let next := mkArticle "B" (words 120) in
  -5 <= 0 /\
  write_wikitext [short] words_tokenizer (Some (-5)) = (mkWriter "" 0 0, []) /\
  write_wikitext [short; first; next] words_tokenizer (Some (-5)) =
    (mkWriter (document words_tokenizer first) 1 101, [next]).
Proof.
  intros short first next.
  assert (Hb : -5 <= 0) by lia.
  split; [exact Hb |]. split.
  - apply (proj1 (non_positive_budget words_tokenizer (-5) [short] Hb)).
    intros a [<- | []]. vm_compute. reflexivity.
  - apply (proj2 (non_positive_budget words_tokenizer (-5)
                    [short; first; next] Hb) [short] first [next]).
    + reflexivity.
    + intros a [<- | []]. vm_compute. reflexivity.
    + vm_compute. reflexivity.
Defined.

Lemma tokenless_article_witness :
  let a := mkArticle "T" (empty_paragraphs 100) in
  token_count words_tokenizer a = 100 /\
  accepted words_tokenizer a = true /\
  document words_tokenizer a = "= T =" ++ nl ++ repeat nl 100.
Proof.
  intros a.
  assert (Hnone :
    forallb (fun p => len (tokens_of (@tokenize_str words_tokenizer (strip p))) =? 0)
            (split NL (text a)) = true) by (vm_compute; reflexivity).
  pose proof (tokenless_article words_tokenizer a Hnone)
    as (Hcount & Hacc & Hdoc & _ & _).
  assert (Hlen : len (split NL (text a)) = 100) by (vm_compute; reflexivity).
  split; [now rewrite Hcount |]. split; [apply Hacc; lia |].
  rewrite Hdoc. vm_compute. reflexivity.
Defined.

(** ** Claims on the article source *)

Lemma flat_map_filter {A : Type} (keep : A -> bool) (f : A -> list A)
    (l : list A) :
  (forall x, f x = if keep x then [x] else []) ->
  flat_map f l = filter keep l.
Proof.
  intros Hf. induction l as [|x l IH]; [reflexivity |].
  simpl. rewrite Hf, IH. now destruct (keep x).
Qed.

(** [get_texts] yields the lines of the tree, in order, without those that
    pass the test of line 25. *)
Lemma get_texts_filter (root : tree) :
  get_texts root = filter (fun a => negb (no_content a)) (lines_of root).
Proof.
  unfold get_texts, lines_of.
  induction root as [|dir_ root IH]; [reflexivity |].
  cbn [flat_map List.concat]. rewrite IH, concat_app, filter_app. f_equal.
  clear IH. induction dir_ as [|wiki_file dir_ IH]; [reflexivity |].
  cbn [flat_map List.concat]. rewrite IH, filter_app. f_equal.
  apply flat_map_filter. intros [title text]. unfold no_content. simpl.
  now destruct (String.eqb (strip text) title).
Qed.

(** C3, as the code has it. A record whose trimmed text equals its title as
    stored ([text.strip() == title], the title not trimmed) is dropped by
    [get_texts], whatever its length, and nothing else happens: the articles
    yielded are the other records, in the order of the tree, so a dropped
    record reaches no call of [write_wikitext] and no output. *)
Theorem stub_filtering (root : tree) :
  get_texts root =
    filter (fun a => negb (String.eqb (strip (text a)) (title a)))
           (lines_of root) /\
  (forall a, In a (get_texts root) <->
             In a (lines_of root) /\ strip (text a) <> title a) /\
  (forall mt jobs name w,
     In (name, w) (fst (write_splits mt (get_texts root) jobs)) ->
     exists written,
       f_out w = corpus mt written /\
       forall a, In a written ->
         In a (lines_of root) /\ strip (text a) <> title a).
Proof.
  assert (Hin : forall a, In a (get_texts root) <->
                  In a (lines_of root) /\ strip (text a) <> title a).
  { intros a. rewrite get_texts_filter, filter_In. unfold no_content.
    destruct (String.eqb_spec (strip (text a)) (title a)); simpl;
      split; intros [? ?]; split; congruence. }
  split; [apply get_texts_filter | split; [exact Hin |]].
  intros mt jobs.
  assert (Hgen : forall text_iter name w,
            (forall a, In a text_iter -> In a (get_texts root)) ->
            In (name, w) (fst (write_splits mt text_iter jobs)) ->
            exists written, f_out w = corpus mt written /\
              forall a, In a written -> In a (get_texts root)).
  { induction jobs as [|[split token_num] jobs IH];
      intros text_iter name w Hsub Hw; [destruct Hw |].
    cbn [write_splits] in Hw. unfold write_wikitext in Hw.
    destruct (write_loop_run mt (Some token_num) text_iter (mkWriter "" 0 0))
      as [consumed [E Hout _ _ _ _]].
    destruct (write_loop mt (Some token_num) text_iter (mkWriter "" 0 0))
      as [w0 it] eqn:Hloop.
    destruct (write_splits mt it jobs) as [ws it'] eqn:Hrest.
    cbn [fst snd] in *. destruct Hw as [Hw | Hw].
    - inversion Hw; subst. exists (filter (accepted mt) consumed).
      split; [exact Hout |]. intros a Ha. apply filter_In in Ha.
      apply Hsub, in_or_app. left. tauto.
    - apply (IH it name w).
      + intros a Ha. apply Hsub. subst text_iter. apply in_or_app. now right.
      + now rewrite Hrest. }
  intros name w Hw.
  destruct (Hgen (get_texts root) name w (fun a H => H) Hw)
    as (written & Hf & Hall).
  exists written. split; [exact Hf |]. intros a Ha. now apply Hin, Hall.
Qed.

(** C3 as stated fails: for this record [text.strip() == title.strip()]
    holds, yet [get_texts] yields it and [main] writes it to the train
    file. *)
Lemma stub_filtering_counterexample :
  let a := spaced_title_record in
  strip (text a) = strip (title a) /\
  get_texts [ [ [a] ] ] = [a] /\
  main [ [ [a] ] ] words_tokenizer (Some 1000) =
    Some ([("train", mkWriter (document words_tokenizer a) 1 102);
           ("valid", mkWriter "" 0 0);
           ("test", mkWriter "" 0 0)], []).
Proof.
  vm_compute. repeat split.
Qed.

(** ** Claims on the three splits *)

(** One call writes the accepted articles of the prefix it takes. *)
Lemma write_wikitext_segment (mt : Tokenizer) (num_tokens : option Z)
    (text_iter : list article) :
  exists consumed,
    text_iter = (consumed ++ snd (write_wikitext text_iter mt num_tokens))%list /\
    f_out (fst (write_wikitext text_iter mt num_tokens)) =
      corpus mt (filter (accepted mt) consumed) /\
    count (fst (write_wikitext text_iter mt num_tokens)) =
      len (filter (accepted mt) consumed).
Proof.
  unfold write_wikitext.
  destruct (write_loop_run mt num_tokens text_iter (mkWriter "" 0 0))
    as [consumed [E Hout Hcount _ _ _]].
  exists consumed. cbn [f_out count String.append] in *.
  split; [exact E |]. split; [exact Hout |]. rewrite Hcount. lia.
Qed.

(** One call with a budget: what it takes, writes and counts, and that it
    leaves articles in the generator only once its total is over the
    budget. *)
Lemma write_wikitext_call (mt : Tokenizer) (budget : Z)
    (text_iter : list article) :
  exists consumed,
    text_iter =
      (consumed ++ snd (write_wikitext text_iter mt (Some budget)))%list /\
    f_out (fst (write_wikitext text_iter mt (Some budget))) =
      corpus mt (filter (accepted mt) consumed) /\
    count (fst (write_wikitext text_iter mt (Some budget))) =
      len (filter (accepted mt) consumed) /\
    total_num_tokens (fst (write_wikitext text_iter mt (Some budget))) =
      budget_used mt consumed /\
    (snd (write_wikitext text_iter mt (Some budget)) <> [] ->
     budget_used mt consumed > budget).
Proof.
  unfold write_wikitext.
  destruct (write_loop_run mt (Some budget) text_iter (mkWriter "" 0 0))
    as [consumed [E Hout Hcount Htotal _ Hstop]].
  exists consumed. cbn [f_out count total_num_tokens String.append] in *.
  split; [exact E |]. split; [exact Hout |]. split; [rewrite Hcount; lia |].
  split; [rewrite Htotal; lia |]. intros Hleft.
  destruct Hstop as [Hnil | (pre & a & _ & _ & Hover)]; [contradiction |].
  rewrite Htotal in Hover. cbn [over_budget] in Hover.
  apply Z.gtb_lt in Hover. lia.
Qed.

(** C2, as the code has it. The three calls cut the sequence of the accepted
    articles of the source, in source order, into four consecutive
    segments: what train wrote, what valid wrote, what test wrote, and the
    accepted articles still in the generator when the test call stops,
    which no split receives. The outputs together are the blocks of all the
    accepted articles exactly when none is left in the generator. A call
    leaves articles to the calls after it only once its total is over its
    budget: when articles are left after the test call, the total of every
    file is over the budget of its split. *)
Theorem exact_once_placement (mt : Tokenizer) (source : list article)
    (b1 b2 b3 : Z) :
  let r := write_splits mt source
             [("train", b1); ("valid", b2); ("test", b3)] in
  exists train valid test : list article,
    filter (accepted mt) source =
      (train ++ valid ++ test ++ filter (accepted mt) (snd r))%list /\
    map (fun file => (fst file, f_out (snd file), count (snd file))) (fst r) =
      [("train", corpus mt train, len train);
       ("valid", corpus mt valid, len valid);
       ("test", corpus mt test, len test)] /\
    (exists taken, source = (taken ++ snd r)%list) /\
    outputs (fst r) ++ corpus mt (filter (accepted mt) (snd r)) =
      corpus mt (filter (accepted mt) source) /\
    (filter (accepted mt) (snd r) = [] <-> exact_once mt source b1 b2 b3) /\
    (exists taken1 taken2 taken3,
       source = (taken1 ++ taken2 ++ taken3 ++ snd r)%list /\
       train = filter (accepted mt) taken1 /\
       valid = filter (accepted mt) taken2 /\
       test = filter (accepted mt) taken3 /\
       map (fun file => total_num_tokens (snd file)) (fst r) =
         [budget_used mt taken1; budget_used mt taken2;
          budget_used mt taken3] /\
       ((taken2 ++ taken3 ++ snd r)%list <> [] ->
          budget_used mt taken1 > b1) /\
       ((taken3 ++ snd r)%list <> [] -> budget_used mt taken2 > b2) /\
       (snd r <> [] -> budget_used mt taken3 > b3)) /\
    (snd r <> [] ->
     Forall2 (fun file budget => total_num_tokens (snd file) > budget)
             (fst r) [b1; b2; b3]).
Proof.
  intros r. subst r. unfold exact_once. cbn [write_splits].
  destruct (write_wikitext_call mt b1 source)
    as (c1 & E1 & O1 & N1 & T1 & S1).
  destruct (write_wikitext source mt (Some b1)) as [w1 it1].
  destruct (write_wikitext_call mt b2 it1) as (c2 & E2 & O2 & N2 & T2 & S2).
  destruct (write_wikitext it1 mt (Some b2)) as [w2 it2].
  destruct (write_wikitext_call mt b3 it2) as (c3 & E3 & O3 & N3 & T3 & S3).
  destruct (write_wikitext it2 mt (Some b3)) as [w3 it3].
  cbn [fst snd map] in *.
  exists (filter (accepted mt) c1), (filter (accepted mt) c2),
         (filter (accepted mt) c3).
  assert (Hseq : filter (accepted mt) source =
                 (filter (accepted mt) c1 ++ filter (accepted mt) c2 ++
                  filter (accepted mt) c3 ++ filter (accepted mt) it3)%list).
  { rewrite E1, E2, E3 at 1. now rewrite !filter_app. }
  assert (Hall : outputs [("train", w1); ("valid", w2); ("test", w3)]
                 ++ corpus mt (filter (accepted mt) it3) =
                 corpus mt (filter (accepted mt) source)).
  { unfold outputs. cbn [map cat snd]. rewrite Hseq, !corpus_app, O1, O2, O3.
    now rewrite append_empty_r, !append_assoc. }
  assert (Hleft2 : (c3 ++ it3)%list <> [] -> it2 <> [])
    by (intros H; now rewrite E3).
  assert (Hleft1 : (c2 ++ c3 ++ it3)%list <> [] -> it1 <> [])
    by (intros H; now rewrite E2, E3).
  split; [exact Hseq |]. split; [now rewrite O1, O2, O3, N1, N2, N3 |].
  split; [exists (c1 ++ c2 ++ c3)%list;
          rewrite E1, E2, E3 at 1; now rewrite <- !app_assoc |].
  split; [exact Hall |]. split; [split |]; [| | split].
  - intros Hnil. rewrite <- Hall, Hnil. unfold corpus at 1. simpl.
    now rewrite append_empty_r.
  - intros Heq. rewrite <- Hall in Heq.
    destruct (filter (accepted mt) it3) as [|a l]; [reflexivity |].
    exfalso. revert Heq. apply append_self_neq.
    unfold corpus. cbn [map cat]. pose proof (document_not_empty mt a) as Hd.
    destruct (document mt a); [easy | discriminate].
  - exists c1, c2, c3. split; [rewrite E1, E2, E3 at 1; reflexivity |].
    do 3 (split; [reflexivity |]). split; [now rewrite T1, T2, T3 |].
    split; [intros H; apply S1, Hleft1, H |].
    split; [intros H; apply S2, Hleft2, H | exact S3].
  - intros Hleft.
    assert (H2 : it2 <> []) by (apply Hleft2; destruct c3; [assumption | easy]).
    assert (H1 : it1 <> [])
      by (rewrite E2; destruct c2; [assumption | easy]).
    repeat constructor; cbn [snd]; [rewrite T1 | rewrite T2 | rewrite T3];
      auto.
Qed.

(** C2 as stated fails: with a total budget of 0, so the budgets (0, 0, 0),
    each split stops after one article and the fourth accepted article
    reaches no output. *)
Lemma exact_once_counterexample :
  get_texts [ [four_articles] ] = four_articles /\
  filter (accepted words_tokenizer) four_articles = four_articles /\
  main [ [four_articles] ] words_tokenizer (Some 0) =
    Some ([("train", mkWriter (document words_tokenizer (mkArticle "A" (words 99))) 1 101);
           ("valid", mkWriter (document words_tokenizer (mkArticle "B" (words 99))) 1 101);
           ("test", mkWriter (document words_tokenizer (mkArticle "C" (words 99))) 1 101)],
          [mkArticle "D" (words 99)]) /\
  ~ exact_once words_tokenizer four_articles 0 0 0.
Proof.
  split; [vm_compute; reflexivity |].
  split; [vm_compute; reflexivity |].
  split; [vm_compute; reflexivity |].
  unfold exact_once. vm_compute. intros H.
  apply (f_equal String.length) in H. vm_compute in H. discriminate.
Qed.

(** ** The scanner *)

Lemma scan_paragraphs (mt : Tokenizer) (ps : list string) (total : Z) :
  fold_left (fun total paragraph =>
               let tokenized := tokenize (strip paragraph) in
               let token_count := len tokenized + 1 in
               if token_count >=? 100 then total + len tokenized else total)
            ps total =
  total + sum (map (fun p => len (tokenize (strip p)))
                   (filter (fun p => len (tokenize (strip p)) + 1 >=? 100) ps)).
Proof.
  revert total. induction ps as [|p ps IH]; intros total; simpl; [lia |].
  rewrite IH. destruct (len (tokenize (strip p)) + 1 >=? 100); simpl; lia.
Qed.

(** The total of the scanner: paragraph by paragraph, over the articles
    that [get_texts] yields. *)
Lemma findTotalTokens_eq (root : tree) (mt : Tokenizer) :
  findTotalTokens root mt = sum (map (scanned mt) (get_texts root)).
Proof.
  unfold findTotalTokens. rewrite <- (Z.add_0_l (sum _)).
  unfold get_texts. generalize 0 as total.
  induction root as [|dir_ root IH]; intros total; [simpl; lia |].
  cbn [fold_left flat_map]. rewrite IH, map_app, sum_app.
  rewrite Z.add_assoc. f_equal. clear IH. revert total.
  induction dir_ as [|wiki_file dir_ IH]; intros total; [simpl; lia |].
  cbn [fold_left flat_map]. rewrite IH, map_app, sum_app.
  rewrite Z.add_assoc. f_equal. clear IH. revert total.
  induction wiki_file as [|line wiki_file IH]; intros total; [simpl; lia |].
  cbn [fold_left flat_map]. rewrite IH, map_app, sum_app.
  rewrite Z.add_assoc. f_equal.
  destruct (String.eqb (strip (text line)) (title line)); [simpl; lia |].
  rewrite scan_paragraphs. unfold scanned. simpl. lia.
Qed.

(** C1 fails on the code. [write_wikitext] counts 122 tokens for the article
    of two paragraphs of 60 words and writes it, but [findTotalTokens]
    tests every paragraph on its own against 100, finds 61 twice and
    returns 0. On one paragraph of 100 words the writer counts 101 and the
    scanner returns 100: it leaves out the one per paragraph. *)
Theorem scanner_differs_from_writer :
  token_count words_tokenizer two_paragraphs = 122 /\
  accepted words_tokenizer two_paragraphs = true /\
  accepted_tokens words_tokenizer [ [ [two_paragraphs] ] ] = 122 /\
  findTotalTokens [ [ [two_paragraphs] ] ] words_tokenizer = 0 /\
  accepted_tokens words_tokenizer [ [ [mkArticle "T" (words 100)] ] ] = 101 /\
  findTotalTokens [ [ [mkArticle "T" (words 100)] ] ] words_tokenizer = 100.
Proof.
  vm_compute. repeat split.
Qed.

(** ** Rounding to binary64 *)

Module Binary64.
Import PyFloat.

(** The number of binary digits bounds a non-negative integer. *)
Lemma digits2_pos_bounds (p : positive) :
  2 ^ (Zpos (digits2_pos p) - 1) <= Zpos p < 2 ^ Zpos (digits2_pos p).
Proof.
  induction p as [p IH | p IH |]; cbn [digits2_pos]; [| | simpl; lia].
  - rewrite Pos2Z.inj_succ, (Pos2Z.inj_xI p).
    replace (Z.succ (Zpos (digits2_pos p)) - 1)
      with (Z.succ (Zpos (digits2_pos p) - 1)) by lia.
    rewrite !Z.pow_succ_r by lia. lia.
  - rewrite Pos2Z.inj_succ, (Pos2Z.inj_xO p).
    replace (Z.succ (Zpos (digits2_pos p)) - 1)
      with (Z.succ (Zpos (digits2_pos p) - 1)) by lia.
    rewrite !Z.pow_succ_r by lia. lia.
Qed.

Lemma Zdigits2_nonneg (m : Z) : 0 <= Zdigits2 m.
Proof. destruct m; simpl; lia. Qed.

Lemma Zdigits2_lt (m : Z) : 0 <= m -> m < 2 ^ Zdigits2 m.
Proof.
  destruct m as [|p|p]; intros H; simpl Zdigits2; [simpl; lia | | lia].
  apply digits2_pos_bounds.
Qed.

(** An integer below [2 ^ k] has at most [k] digits. *)
Lemma Zdigits2_le (m k : Z) : 0 <= m -> 0 <= k -> m < 2 ^ k -> Zdigits2 m <= k.
Proof.
  intros Hm Hk H. destruct m as [|p|p]; simpl Zdigits2; [lia | | lia].
  destruct (Z.le_gt_cases (Zpos (digits2_pos p)) k) as [|Hgt]; [assumption |].
  pose proof (digits2_pos_bounds p) as [Hlow _].
  assert (2 ^ k <= 2 ^ (Zpos (digits2_pos p) - 1))
    by (apply Z.pow_le_mono_r; lia).
  lia.
Qed.

Lemma Zdigits2_succ (m : Z) : 0 <= m -> Zdigits2 (m + 1) <= Zdigits2 m + 1.
Proof.
  intros Hm. pose proof (Zdigits2_nonneg m). pose proof (Zdigits2_lt m Hm).
  apply Zdigits2_le; try lia. rewrite Z.pow_add_r by lia. simpl. lia.
Qed.

Lemma Zdigits2_mul (m n : Z) :
  0 <= m -> 0 <= n -> Zdigits2 (m * n) <= Zdigits2 m + Zdigits2 n.
Proof.
  intros Hm Hn. pose proof (Zdigits2_nonneg m). pose proof (Zdigits2_nonneg n).
  pose proof (Zdigits2_lt m Hm). pose proof (Zdigits2_lt n Hn).
  apply Zdigits2_le; try lia. rewrite Z.pow_add_r by lia. nia.
Qed.

Lemma Zdigits2_div (m n : Z) :
  0 <= m -> 0 <= n -> Zdigits2 (m / 2 ^ n) + n <= Z.max (Zdigits2 m) n.
Proof.
  intros Hm Hn. pose proof (Zdigits2_nonneg m). pose proof (Zdigits2_lt m Hm).
  assert (Hp : 0 < 2 ^ n) by (apply Z.pow_pos_nonneg; lia).
  assert (Hq : 0 <= m / 2 ^ n) by (apply Z.div_pos; lia).
  cut (Zdigits2 (m / 2 ^ n) <= Z.max (Zdigits2 m) n - n); [lia |].
  apply Zdigits2_le; try lia.
  apply Z.div_lt_upper_bound; [lia |].
  rewrite <- Z.pow_add_r by lia.
  apply Z.lt_le_trans with (1 := H0). apply Z.pow_le_mono_r; lia.
Qed.

(** Shifting right is a division. *)
Lemma shr_1_m (mrs : shr_record) :
  0 <= shr_m mrs -> shr_m (shr_1 mrs) = shr_m mrs / 2.
Proof.
  destruct mrs as [m r s]. cbn [shr_m]. intros Hm.
  rewrite <- Z.div2_div.
  destruct m as [|[p|p|]|p]; cbn [shr_1 shr_m]; try reflexivity; lia.
Qed.

Lemma iter_shr_1_m (p : positive) (mrs : shr_record) :
  0 <= shr_m mrs ->
  shr_m (iter_pos shr_1 p mrs) = shr_m mrs / 2 ^ Zpos p.
Proof.
  revert mrs. induction p as [p IH | p IH |]; intros mrs Hm; cbn [iter_pos].
  - assert (H1 : 0 <= shr_m (shr_1 mrs))
      by (rewrite shr_1_m by assumption; apply Z.div_pos; lia).
    assert (H2 : 0 <= shr_m (iter_pos shr_1 p (shr_1 mrs)))
      by (rewrite IH by assumption; apply Z.div_pos; [lia |];
          apply Z.pow_pos_nonneg; lia).
    rewrite IH, IH, shr_1_m by assumption.
    assert (Hp : 0 < 2 ^ Zpos p) by (apply Z.pow_pos_nonneg; lia).
    rewrite !Z.div_div by lia. f_equal.
    rewrite (Pos2Z.inj_xI p). replace (2 * Zpos p + 1) with (1 + Zpos p + Zpos p) by lia.
    rewrite !Z.pow_add_r by lia. change (2 ^ 1) with 2. ring.
  - assert (H2 : 0 <= shr_m (iter_pos shr_1 p mrs))
      by (rewrite IH by assumption; apply Z.div_pos; [lia |];
          apply Z.pow_pos_nonneg; lia).
    rewrite IH, IH by assumption.
    assert (Hp : 0 < 2 ^ Zpos p) by (apply Z.pow_pos_nonneg; lia).
    rewrite !Z.div_div by lia. f_equal.
    rewrite (Pos2Z.inj_xO p). replace (2 * Zpos p) with (Zpos p + Zpos p) by lia.
    rewrite !Z.pow_add_r by lia. reflexivity.
  - rewrite shr_1_m by assumption. reflexivity.
Qed.

Lemma shr_record_of_loc_m (m : Z) (l : location) :
  shr_m (shr_record_of_loc m l) = m.
Proof. destruct l as [|[| |]]; reflexivity. Qed.

(** [shr_fexp] brings the exponent up to [fexp] and divides the mantissa
    accordingly. *)
Lemma shr_fexp_spec (m e : Z) (l : location) :
  0 <= m ->
  snd (shr_fexp prec emax m e l) = Z.max e (fexp prec emax (Zdigits2 m + e)) /\
  shr_m (fst (shr_fexp prec emax m e l)) =
    m / 2 ^ (snd (shr_fexp prec emax m e l) - e).
Proof.
  intros Hm. unfold shr_fexp, shr.
  destruct (fexp prec emax (Zdigits2 m + e) - e) as [|p|p] eqn:Hn;
    cbn [fst snd].
  - rewrite shr_record_of_loc_m, Z.sub_diag, Z.pow_0_r, Z.div_1_r. lia.
  - rewrite iter_shr_1_m by (now rewrite shr_record_of_loc_m).
    rewrite shr_record_of_loc_m. split; [lia |]. do 2 f_equal. lia.
  - rewrite shr_record_of_loc_m, Z.sub_diag, Z.pow_0_r, Z.div_1_r. lia.
Qed.

Lemma round_nearest_even_cases (m : Z) (l : location) :
  round_nearest_even m l = m \/ round_nearest_even m l = m + 1.
Proof.
  destruct l as [|[| |]]; simpl; auto. destruct (Z.even m); auto.
Qed.

(** Rounding a non-negative mantissa with a small enough exponent: the
    result keeps the sign, is zero or finite, and a finite result is at most
    one binade above the value rounded. *)
Lemma binary_round_aux_finite (s : bool) (m e : Z) (l : location) :
  0 <= m -> e <= 971 -> Zdigits2 m + e <= 1023 ->
  binary_round_aux prec emax s m e l = S754_zero s \/
  exists m' e',
    binary_round_aux prec emax s m e l = S754_finite s m' e' /\
    e' <= 971 /\
    Zpos (digits2_pos m') + e' <= Z.max (Zdigits2 m + e) (-1074) + 1.
Proof.
  intros Hm He Hd. unfold binary_round_aux.
  pose proof (shr_fexp_spec m e l Hm) as [He1 Hm1].
  destruct (shr_fexp prec emax m e l) as [mrs1 e1]. cbn [fst snd] in *.
  set (m2 := round_nearest_even (shr_m mrs1) (loc_of_shr_record mrs1)).
  pose proof (Zdigits2_nonneg m) as Hdm.
  assert (Hn1 : 0 <= e1 - e) by lia.
  assert (Hp1 : 0 < 2 ^ (e1 - e)) by (apply Z.pow_pos_nonneg; lia).
  assert (Hm1' : 0 <= shr_m mrs1) by (rewrite Hm1; apply Z.div_pos; lia).
  pose proof (Zdigits2_div m (e1 - e) Hm Hn1) as Hd1. rewrite <- Hm1 in Hd1.
  assert (Hm2 : 0 <= m2 /\ Zdigits2 m2 <= Zdigits2 (shr_m mrs1) + 1).
  { subst m2.
    destruct (round_nearest_even_cases (shr_m mrs1) (loc_of_shr_record mrs1))
      as [-> | ->]; [lia |].
    split; [lia | now apply Zdigits2_succ]. }
  destruct Hm2 as [Hm2 Hd2].
  pose proof (shr_fexp_spec m2 e1 loc_Exact Hm2) as [He2 Hm3].
  destruct (shr_fexp prec emax m2 e1 loc_Exact) as [mrs2 e2].
  cbn [fst snd] in *.
  assert (Hn2 : 0 <= e2 - e1) by lia.
  pose proof (Zdigits2_div m2 (e2 - e1) Hm2 Hn2) as Hd3. rewrite <- Hm3 in Hd3.
  assert (Hp2 : 0 < 2 ^ (e2 - e1)) by (apply Z.pow_pos_nonneg; lia).
  assert (Hm3' : 0 <= shr_m mrs2) by (rewrite Hm3; apply Z.div_pos; lia).
  unfold fexp, emin, prec, emax in *.
  destruct (shr_m mrs2) as [|p|p] eqn:Hp; [now left | right | lia].
  assert (He2' : e2 <= 971) by lia.
  exists p, e2. destruct (Z.leb_spec e2 (1024 - 53)); [| lia].
  split; [reflexivity |]. split; [lia |]. simpl Zdigits2 in Hd3. lia.
Qed.

Lemma iter_xO (m d : positive) :
  Zpos (Pos.iter xO m d) = Zpos m * 2 ^ Zpos d.
Proof.
  induction d as [|d IH] using Pos.peano_ind.
  - simpl. lia.
  - rewrite Pos.iter_succ, Pos2Z.inj_succ, Z.pow_succ_r by lia.
    rewrite (Pos2Z.inj_xO (Pos.iter xO m d)), IH. ring.
Qed.

Lemma shl_align_spec (mx : positive) (ex ex' : Z) :
  snd (shl_align mx ex ex') <= ex /\
  Zdigits2 (Zpos (fst (shl_align mx ex ex'))) + snd (shl_align mx ex ex')
  <= Zpos (digits2_pos mx) + ex.
Proof.
  unfold shl_align. destruct (ex' - ex) as [|d|d] eqn:Hd; cbn [fst snd];
    [simpl; lia | simpl; lia |].
  split; [lia |].
  cut (Zdigits2 (Zpos (Pos.iter xO mx d)) <= Zpos (digits2_pos mx) + Zpos d);
    [lia |].
  apply Zdigits2_le; try lia. rewrite iter_xO, Z.pow_add_r by lia.
  pose proof (digits2_pos_bounds mx).
  assert (0 < 2 ^ Zpos d) by (apply Z.pow_pos_nonneg; lia). nia.
Qed.

(** [float(z)] of an integer from 0 to [2 ^ 1021] does not overflow. *)
Lemma of_int_finite (z : Z) :
  0 <= z < 2 ^ 1021 ->
  of_int z = Some (S754_zero false) \/
  exists m e, of_int z = Some (S754_finite false m e) /\
              e <= 971 /\ Zpos (digits2_pos m) + e <= 1022.
Proof.
  intros [Hz Hmax]. unfold of_int.
  destruct z as [|p|p]; [now left | | lia].
  cbn [binary_normalize]. unfold binary_round.
  pose proof (shl_align_spec p 0
                (fexp prec emax (Zpos (digits2_pos p) + 0))) as [He Hd].
  destruct (shl_align p 0 (fexp prec emax (Zpos (digits2_pos p) + 0)))
    as [mz ez]. cbn [fst snd] in *.
  assert (Hp : Zpos (digits2_pos p) <= 1021).
  { apply (Zdigits2_le (Zpos p)); lia. }
  destruct (binary_round_aux_finite false (Zpos mz) ez loc_Exact)
    as [-> | (m & e & -> & Hle & Hdig)]; try lia; [now left | right].
  exists m, e. repeat split; lia.
Qed.

(** A fraction is zero, or positive and below 2. *)
Lemma is_fraction_cases (x : spec_float) :
  is_fraction x = true ->
  (exists s, x = S754_zero s) \/
  exists m e, x = S754_finite false m e /\ e <= -52 /\
              Zpos (digits2_pos m) + e <= 1.
Proof.
  unfold is_fraction. intros H.
  apply andb_true_iff in H as [H Hone]. apply andb_true_iff in H as [Hv Hzero].
  destruct x as [s | s | | s m e].
  - left. now exists s.
  - destruct s; discriminate.
  - discriminate.
  - destruct s; [discriminate |]. right. exists m, e.
    split; [reflexivity |]. cbn [valid_binary] in Hv. unfold bounded in Hv.
    apply andb_true_iff in Hv as [Hc _]. unfold canonical_mantissa in Hc.
    apply Z.eqb_eq in Hc. unfold fexp, emin, prec, emax in Hc.
    unfold SFleb, SFcompare, one in Hone.
    destruct (Z.compare_spec e (-52)); try discriminate; lia.
Qed.

End Binary64.

(** ** Claims on the budget planner *)

(** The literal [0.1] of line 152 as the kernel's floats read it. *)
Lemma tenth_literal : Prim2SF 0x1.999999999999ap-4%float = PyFloat.tenth.
Proof. reflexivity. Qed.

(** [int(x)] of a value that is not negative is its floor. *)
Lemma to_int_floor (x : spec_float) :
  SFltb x (S754_zero false) = false -> PyFloat.to_int x = PyFloat.floor x.
Proof.
  destruct x as [s | s | | [|] m e]; try reflexivity. discriminate.
Qed.

(** [floor] is the floor: of [m * 2 ^ e] with [e < 0], the integer [z] with
    [z * 2 ^ (- e) <= m < (z + 1) * 2 ^ (- e)]; with [0 <= e] the value is
    an integer. *)
Lemma floor_spec (s : bool) (m : positive) (e : Z) :
  let v := if s then Zneg m else Zpos m in
  exists z, PyFloat.floor (S754_finite s m e) = Some z /\
    (e < 0 -> z * 2 ^ (- e) <= v < (z + 1) * 2 ^ (- e)) /\
    (0 <= e -> z = v * 2 ^ e).
Proof.
  intros v. exists (Z.shiftl v e). split; [reflexivity |]. split; intros He.
  - assert (Hs : Z.shiftl v e = v / 2 ^ (- e)).
    { rewrite <- Z.shiftr_div_pow2 by lia. rewrite <- Z.shiftl_opp_r.
      now rewrite Z.opp_involutive. }
    rewrite Hs.
    assert (Hp : 0 < 2 ^ (- e)) by (apply Z.pow_pos_nonneg; lia).
    pose proof (Z.div_mod v (2 ^ (- e)) ltac:(lia)).
    pose proof (Z.mod_pos_bound v (2 ^ (- e)) Hp). nia.
  - now apply Z.shiftl_mul_pow2.
Qed.

(** Whatever the count and the fraction, a plan that [get_splits] returns
    gives valid and test the same budget and shares out the whole count. *)
Lemma get_splits_shape (tokens_size : Z) (fraction : spec_float)
    (train valid test : Z) :
  get_splits tokens_size fraction = Some (train, valid, test) ->
  valid = test /\ train = tokens_size - 2 * valid /\
  train + valid + test = tokens_size.
Proof.
  unfold get_splits. destruct (PyFloat.of_int tokens_size) as [x|]; [| easy].
  destruct (PyFloat.to_int (PyFloat.mul x fraction)) as [split|]; [| easy].
  remember (2 * split) as d eqn:Hd. intros H.
  injection H as Htrain Hvalid Htest. lia.
Qed.

(** C7. For a token count from 0 and a fraction from 0 to 1,
    [get_splits] returns [(train, split, split)] where [split] is the floor
    of the float product of the count and the fraction and [train] is the
    count less twice the split, so the three budgets together do not exceed
    the count. (The count is taken below [2 ^ 1021]: an [int] beyond the
    range of [float] raises in the conversion.) *)
Theorem get_splits_plan (tokens_size : Z) (fraction : spec_float)
    (Hsize : 0 <= tokens_size < 2 ^ 1021)
    (Hfraction : PyFloat.is_fraction fraction = true) :
  exists x split,
    PyFloat.of_int tokens_size = Some x /\
    PyFloat.floor (PyFloat.mul x fraction) = Some split /\
    get_splits tokens_size fraction =
      Some (tokens_size - 2 * split, split, split) /\
    (tokens_size - 2 * split) + split + split <= tokens_size /\
    (tokens_size - 2 * split) + 2 * split <= tokens_size.
Proof.
  unfold get_splits.
  assert (Hgoal : forall x,
            PyFloat.of_int tokens_size = Some x ->
            (exists s, PyFloat.mul x fraction = S754_zero s) \/
            (exists m e, PyFloat.mul x fraction = S754_finite false m e) ->
            exists x split,
              PyFloat.of_int tokens_size = Some x /\
              PyFloat.floor (PyFloat.mul x fraction) = Some split /\
              match PyFloat.of_int tokens_size with
              | Some x =>
                  match PyFloat.to_int (PyFloat.mul x fraction) with
                  | Some split =>
                      Some (tokens_size - 2 * split, split, split)
                  | None => None
                  end
              | None => None
              end = Some (tokens_size - 2 * split, split, split) /\
              (tokens_size - 2 * split) + split + split <= tokens_size /\
              (tokens_size - 2 * split) + 2 * split <= tokens_size).
  { intros x Hx [(s & Hp) | (m & e & Hp)]; rewrite Hx.
    - exists x, 0. rewrite Hp. cbn. repeat split; try reflexivity; lia.
    - exists x, (Z.shiftl (Zpos m) e). rewrite Hp. cbn [PyFloat.floor PyFloat.to_int].
      repeat split; try reflexivity; lia. }
  destruct (Binary64.of_int_finite tokens_size Hsize)
    as [Hx | (mx & ex & Hx & Hex & Hdx)];
    destruct (Binary64.is_fraction_cases fraction Hfraction)
      as [(s & ->) | (my & ey & -> & Hey & Hdy)].
  - apply (Hgoal _ Hx). left. now exists (xorb false s).
  - apply (Hgoal _ Hx). left. now exists (xorb false false).
  - apply (Hgoal _ Hx). left. now exists (xorb false s).
  - apply (Hgoal _ Hx). unfold PyFloat.mul. cbn [SFmul xorb].
    destruct (Binary64.binary_round_aux_finite false
                (Zpos (mx * my)) (ex + ey) loc_Exact)
      as [-> | (m & e & -> & _ & _)]; try lia.
    + pose proof (Binary64.Zdigits2_mul (Zpos mx) (Zpos my)) as Hmul.
      rewrite <- Pos2Z.inj_mul in Hmul. cbn [Zdigits2] in *. lia.
    + left. now exists false.
    + right. now exists m, e.
Qed.

(** The two plans of the claim, 1000 and 0 tokens with the fraction 0.1. *)
Lemma get_splits_plan_witness :
  (0 <= 1000 < 2 ^ 1021) /\ (0 <= 0 < 2 ^ 1021) /\
  PyFloat.is_fraction PyFloat.tenth = true /\
  get_splits 1000 PyFloat.tenth = Some (800, 100, 100) /\
  get_splits 0 PyFloat.tenth = Some (0, 0, 0).
Proof.
  assert (H1000 : 0 <= 1000 < 2 ^ 1021) by (split; [discriminate | reflexivity]).
  assert (H0 : 0 <= 0 < 2 ^ 1021) by (split; [discriminate | reflexivity]).
  assert (Hf : PyFloat.is_fraction PyFloat.tenth = true) by reflexivity.
  split; [exact H1000 |]. split; [exact H0 |]. split; [exact Hf |]. split.
  - destruct (get_splits_plan 1000 PyFloat.tenth H1000 Hf)
      as (x & split & Hx & Hfloor & Hplan & _).
    vm_compute in Hx. injection Hx as <-.
    vm_compute in Hfloor. injection Hfloor as <-. exact Hplan.
  - destruct (get_splits_plan 0 PyFloat.tenth H0 Hf)
      as (x & split & Hx & Hfloor & Hplan & _).
    vm_compute in Hx. injection Hx as <-.
    vm_compute in Hfloor. injection Hfloor as <-. exact Hplan.
Defined.

(** Outside the domain of the claim: a negative count is rounded towards
    zero, not down, and a count beyond the range of [float] raises. *)
Example get_splits_negative :
  get_splits (-5) PyFloat.tenth = Some (-5, 0, 0) /\
  PyFloat.floor (PyFloat.mul (S754_finite true 5 0) PyFloat.tenth) = Some (-1).
Proof. vm_compute. split; reflexivity. Qed.

Example get_splits_overflow : get_splits (2 ^ 1024) PyFloat.tenth = None.
Proof. vm_compute. reflexivity. Qed.

(** * Further properties *)

(** ** countUnique *)

Lemma counter_add_in (cnt : Counter) (elem x : string) :
  In x (map fst (counter_add cnt elem)) <-> In x (map fst cnt) \/ x = elem.
Proof.
  induction cnt as [|[key n] cnt IH]; simpl.
  - split; intros [H | H]; auto; contradiction.
  - destruct (String.eqb_spec key elem) as [-> | Hne]; simpl.
    + split; intros H; [tauto |]. destruct H as [[H | H] | H]; auto.
    + rewrite IH. tauto.
Qed.

Lemma counter_add_nodup (cnt : Counter) (elem : string) :
  NoDup (map fst cnt) -> NoDup (map fst (counter_add cnt elem)).
Proof.
  induction cnt as [|[key n] cnt IH]; simpl; intros Hnd.
  - constructor; [easy | constructor].
  - inversion Hnd as [|? ? Hnot Hnd']; subst.
    destruct (String.eqb_spec key elem) as [-> | Hne]; simpl.
    + now constructor.
    + constructor; [| now apply IH].
      rewrite counter_add_in. intros [H | H]; [contradiction | congruence].
Qed.

Lemma counter_update_keys (iterable : list string) (cnt : Counter) :
  NoDup (map fst cnt) ->
  NoDup (map fst (counter_update cnt iterable)) /\
  forall x, In x (map fst (counter_update cnt iterable)) <->
            In x (map fst cnt) \/ In x iterable.
Proof.
  unfold counter_update. revert cnt.
  induction iterable as [|elem iterable IH]; intros cnt Hnd; simpl.
  - split; [assumption | intros x; tauto].
  - destruct (IH (counter_add cnt elem) (counter_add_nodup cnt elem Hnd))
      as [Hnd' Hin].
    split; [assumption |]. intros x. rewrite Hin, counter_add_in.
    split; intros H; intuition congruence.
Qed.

Lemma counter_update_lines (f : string -> list string) (lines : list string)
    (cnt : Counter) :
  fold_left (fun cnt line => counter_update cnt (f line)) lines cnt =
  counter_update cnt (flat_map f lines).
Proof.
  revert cnt. induction lines as [|line lines IH]; intros cnt; simpl;
    [reflexivity |].
  rewrite IH. unfold counter_update. now rewrite fold_left_app.
Qed.

(** The fields of a text do not change when whitespace is cut off its
    ends. *)
Lemma split_ws_lstrip (s : string) : split_ws (lstrip s) = split_ws s.
Proof.
  induction s as [|c s IH]; [reflexivity |].
  cbn [lstrip]. destruct (isspace c) eqn:Hc; [| reflexivity].
  cbn [split_ws]. now rewrite Hc.
Qed.

Lemma starts_field_rstrip (s : string) :
  starts_field (rstrip s) = starts_field s.
Proof.
  destruct s as [|c s]; [reflexivity |]. cbn [rstrip].
  destruct (isspace c) eqn:Hc; simpl.
  - destruct (is_empty (rstrip s)); simpl; now rewrite ?Hc.
  - now rewrite Hc.
Qed.

Lemma is_empty_eq (s : string) : is_empty s = true -> s = "".
Proof. destruct s; [reflexivity | discriminate]. Qed.

Lemma split_ws_rstrip (s : string) : split_ws (rstrip s) = split_ws s.
Proof.
  induction s as [|c s IH]; [reflexivity |].
  cbn [rstrip]. destruct (isspace c) eqn:Hc; simpl andb.
  - destruct (is_empty (rstrip s)) eqn:He.
    + apply is_empty_eq in He. rewrite He in IH. cbn [split_ws].
      now rewrite Hc.
    + cbn [split_ws]. now rewrite Hc.
  - cbn [split_ws]. now rewrite Hc, starts_field_rstrip, IH.
Qed.

Lemma split_ws_strip (s : string) : split_ws (strip s) = split_ws s.
Proof.
  unfold strip. now rewrite split_ws_rstrip, split_ws_lstrip.
Qed.

Lemma starts_field_split_ws (s : string) :
  starts_field s = true -> split_ws s <> [].
Proof.
  destruct s as [|c s]; [discriminate |]. cbn [starts_field split_ws].
  intros Hc. apply negb_true_iff in Hc. rewrite Hc.
  destruct (starts_field s); [destruct (split_ws s) |]; discriminate.
Qed.

Lemma starts_field_first_line (s line : string) (lines : list string) :
  file_lines s = line :: lines -> starts_field line = starts_field s.
Proof.
  destruct s as [|c s]; [discriminate |]. cbn [file_lines].
  destruct (Ascii.eqb_spec c NL) as [-> | Hc].
  - intros H. injection H as <- _. reflexivity.
  - destruct (file_lines s); intros H; injection H as <- _; reflexivity.
Qed.

(** The fields of a text are the fields of its lines: no field runs over a
    newline. *)
Lemma split_ws_file_lines (s : string) :
  flat_map split_ws (file_lines s) = split_ws s.
Proof.
  induction s as [|c s IH]; [reflexivity |].
  cbn [file_lines]. destruct (Ascii.eqb_spec c NL) as [-> | Hc].
  - cbn [flat_map]. now rewrite IH.
  - destruct (file_lines s) as [|line lines] eqn:Hl.
    + destruct s as [|d s]; [cbn [flat_map]; now rewrite app_nil_r |].
      cbn [file_lines] in Hl.
      destruct (Ascii.eqb d NL); [discriminate |].
      destruct (file_lines s); discriminate.
    + pose proof (starts_field_first_line s line lines Hl) as Hs.
      cbn [flat_map] in *. cbn [split_ws]. rewrite Hs.
      destruct (isspace c); [exact IH |].
      destruct (starts_field s) eqn:Hf.
      * apply starts_field_split_ws in Hs.
        rewrite <- IH. destruct (split_ws line); [contradiction | reflexivity].
      * now rewrite <- IH.
Qed.

Lemma count_tokens_eq (reader : string) :
  count_tokens reader = counter_update [] (split_ws reader).
Proof.
  unfold count_tokens. rewrite counter_update_lines. f_equal.
  rewrite <- split_ws_file_lines.
  induction (file_lines reader) as [|line lines IH]; [reflexivity |].
  simpl. now rewrite IH, split_ws_strip.
Qed.

Lemma nodup_same_length (l l' : list string) :
  NoDup l -> NoDup l' -> (forall x, In x l <-> In x l') ->
  List.length l = List.length l'.
Proof.
  intros Hl Hl' Hin. apply Nat.le_antisymm; apply NoDup_incl_length;
    try assumption; intros x Hx; now apply Hin.
Qed.

Lemma countUnique_eq (reader : string) :
  countUnique reader = len (nodup string_dec (split_ws reader)).
Proof.
  unfold countUnique, len. rewrite count_tokens_eq.
  destruct (counter_update_keys (split_ws reader) [] (NoDup_nil _))
    as [Hnd Hin].
  rewrite <- (length_map fst). f_equal.
  apply nodup_same_length; [assumption | apply NoDup_nodup |].
  intros x. rewrite Hin, nodup_In. simpl. tauto.
Qed.

(** X1. [countUnique] returns the number of distinct whitespace-delimited
    tokens of the whole file: the cut into lines and the [strip] of every
    line change nothing, and a token is counted once however often and on
    however many lines it occurs. *)
Theorem countUnique_distinct_tokens (reader : string) :
  countUnique reader = len (nodup string_dec (split_ws reader)) /\
  NoDup (map fst (count_tokens reader)) /\
  (forall token, In token (map fst (count_tokens reader)) <->
                 In token (split_ws reader)).
Proof.
  split; [apply countUnique_eq |]. rewrite count_tokens_eq.
  destruct (counter_update_keys (split_ws reader) [] (NoDup_nil _))
    as [Hnd Hin].
  split; [assumption |]. intros token. rewrite Hin. simpl. tauto.
Qed.

Lemma split_ws_nil (s : string) : split_ws s = [] <-> all_space s = true.
Proof.
  induction s as [|c s IH]; [easy |]. cbn [split_ws all_space].
  destruct (isspace c); [exact IH |]. simpl.
  destruct (starts_field s); [destruct (split_ws s) |]; easy.
Qed.

Lemma split_ws_app_space (s t : string) (c : ascii) :
  isspace c = true ->
  split_ws (s ++ String c t) = (split_ws s ++ split_ws t)%list.
Proof.
  intros Hc. induction s as [|a s IH].
  - simpl. now rewrite Hc.
  - cbn [String.append split_ws]. rewrite IH.
    assert (Hs : starts_field (s ++ String c t) = starts_field s).
    { destruct s; simpl; [now rewrite Hc | reflexivity]. }
    rewrite Hs. destruct (isspace a); [reflexivity |].
    destruct (starts_field s) eqn:Hf; [| reflexivity].
    apply starts_field_split_ws in Hf.
    destruct (split_ws s); [contradiction | reflexivity].
Qed.

Lemma nodup_length_nil (l : list string) :
  len (nodup string_dec l) = 0 <-> l = [].
Proof.
  unfold len. split; [| now intros ->].
  destruct l as [|x l]; [reflexivity |]. intros H.
  assert (Hx : In x (nodup string_dec (x :: l))) by (apply nodup_In; now left).
  destruct (nodup string_dec (x :: l)); [contradiction | simpl in H; lia].
Qed.

(** X2. [countUnique] returns 0 exactly for a file that holds nothing but
    whitespace, the empty file included. *)
Theorem countUnique_zero (reader : string) :
  countUnique reader = 0 <-> all_space reader = true.
Proof.
  now rewrite countUnique_eq, nodup_length_nil, split_ws_nil.
Qed.

(** X3. For two texts put one after the other with a newline between them,
    the count does not depend on their order, is at least the count of each
    and at most the sum of the two. *)
Theorem countUnique_concat (reader1 reader2 : string) :
  countUnique (reader1 ++ nl ++ reader2) =
    countUnique (reader2 ++ nl ++ reader1) /\
  countUnique reader1 <= countUnique (reader1 ++ nl ++ reader2) /\
  countUnique reader2 <= countUnique (reader1 ++ nl ++ reader2) /\
  countUnique (reader1 ++ nl ++ reader2) <=
    countUnique reader1 + countUnique reader2.
Proof.
  rewrite !countUnique_eq. unfold nl. cbn [String.append].
  rewrite !split_ws_app_space by reflexivity. unfold len.
  set (l1 := split_ws reader1). set (l2 := split_ws reader2).
  assert (Hle : forall l l' : list string,
            incl l l' ->
            (List.length (nodup string_dec l)
             <= List.length (nodup string_dec l'))%nat).
  { intros l l' Hincl. apply NoDup_incl_length; [apply NoDup_nodup |].
    intros x Hx. apply nodup_In. apply Hincl. now apply nodup_In in Hx. }
  assert (H12 : (List.length (nodup string_dec (l1 ++ l2))
                 <= List.length (nodup string_dec l1 ++ nodup string_dec l2))%nat).
  { apply NoDup_incl_length; [apply NoDup_nodup |].
    intros x Hx. apply nodup_In in Hx. apply in_app_or in Hx.
    apply in_or_app. rewrite !nodup_In. exact Hx. }
  rewrite length_app in H12.
  pose proof (Hle l1 (l1 ++ l2)%list (incl_appl l2 (incl_refl l1))).
  pose proof (Hle l2 (l1 ++ l2)%list (incl_appr l1 (incl_refl l2))).
  pose proof (Hle (l1 ++ l2)%list (l2 ++ l1)%list) as Ha.
  pose proof (Hle (l2 ++ l1)%list (l1 ++ l2)%list) as Hb.
  assert (incl (l1 ++ l2) (l2 ++ l1))
    by (intros x Hx; apply in_or_app; apply in_app_or in Hx; tauto).
  assert (incl (l2 ++ l1) (l1 ++ l2))
    by (intros x Hx; apply in_or_app; apply in_app_or in Hx; tauto).
  specialize (Ha ltac:(assumption)). specialize (Hb ltac:(assumption)).
  repeat split; lia.
Qed.

(** The example of the vocabulary count: the lines [a b a] and [b c]. *)
Example countUnique_example :
  countUnique ("a b a" ++ nl ++ "b c" ++ nl) = 3.
Proof. reflexivity. Qed.

(** X4. A file written by [write_wikitext] has a vocabulary count of 0
    exactly when no document was written to it; as soon as one was, the
    header token [=] is part of the vocabulary. *)
Theorem countUnique_of_split (mt : Tokenizer) (num_tokens : option Z)
    (text_iter : list article) :
  let w := fst (write_wikitext text_iter mt num_tokens) in
  (countUnique (f_out w) = 0 <-> count w = 0) /\
  (0 < count w -> In "=" (split_ws (f_out w))).
Proof.
  intros w. subst w.
  destruct (write_wikitext_segment mt num_tokens text_iter)
    as (consumed & _ & Hout & Hcount).
  rewrite Hout, Hcount. rewrite countUnique_eq, nodup_length_nil.
  destruct (filter (accepted mt) consumed) as [|a written].
  - split; [easy |]. unfold len. simpl. lia.
  - assert (Hfirst : exists rest,
              split_ws (corpus mt (a :: written)) = "=" :: rest).
    { unfold corpus, document. cbn [map cat]. rewrite !append_assoc.
      cbn [String.append split_ws]. change (isspace "=") with false.
      cbn iota. change (starts_field (String " " ?s)) with false.
      cbn iota. eexists. reflexivity. }
    destruct Hfirst as [rest Hfirst]. rewrite Hfirst.
    split; [| intros _; now left].
    unfold len. simpl. split; [discriminate | lia].
Qed.

(** ** wiki2csv *)

Lemma csv_fold_plain (text : string) :
  fold_left csv_paragraph_step (split NL text) (0, []) =
  tokenize_article plain_tokenizer text.
Proof. reflexivity. Qed.

Lemma csv_article_eq (num_tokens : option Z) (st : csv_writer) (i : Z)
    (text : string) :
  csv_article num_tokens st i text =
  if csv_token_count text <? 100 then (st, false)
  else
    let rows := (csv_rows st ++ [[csv_field text]])%list in
    let total := csv_total st + (csv_token_count text + 1) in
    if over_budget num_tokens total
    then (mkCsv rows total (csv_progress st), true)
    else if (i mod 100000 =? 0) && (i >? 0)
    then (mkCsv rows total (csv_progress st ++ [(i, total)])%list, false)
    else (mkCsv rows total (csv_progress st), false).
Proof.
  unfold csv_article, csv_token_count, csv_field, over_budget.
  destruct (fold_left csv_paragraph_step (split NL text) (0, []))
    as [n tps]. reflexivity.
Qed.

(** X5. [wiki2csv] filters and counts as [write_wikitext] does when the
    tokenizer leaves every paragraph as it is: over the same texts and with
    the same budget, both take the same texts, reach the same total, write
    as many rows as documents, and a row is written for exactly the texts
    taken whose count is at least 100, in order, each row one field. *)
Theorem wiki2csv_as_write_wikitext (text_iter : list string)
    (num_tokens : option Z) (title : string) :
  let c := wiki2csv text_iter num_tokens in
  let w := write_wikitext (map (mkArticle title) text_iter) plain_tokenizer
             num_tokens in
  csv_total (fst c) = total_num_tokens (fst w) /\
  len (csv_rows (fst c)) = count (fst w) /\
  map (mkArticle title) (snd c) = snd w /\
  exists consumed,
    text_iter = (consumed ++ snd c)%list /\
    csv_rows (fst c) =
      map (fun text => [csv_field text])
          (filter (fun text => 100 <=? csv_token_count text) consumed).
Proof.
  unfold wiki2csv, write_wikitext.
  assert (H : forall texts i st wst,
            csv_total st = total_num_tokens wst ->
            len (csv_rows st) = count wst ->
            let c := csv_loop num_tokens texts i st in
            let w := write_loop plain_tokenizer num_tokens
                       (map (mkArticle title) texts) wst in
            csv_total (fst c) = total_num_tokens (fst w) /\
            len (csv_rows (fst c)) = count (fst w) /\
            map (mkArticle title) (snd c) = snd w /\
            exists consumed,
              texts = (consumed ++ snd c)%list /\
              csv_rows (fst c) =
                (csv_rows st ++
                 map (fun text => [csv_field text])
                     (filter (fun text => 100 <=? csv_token_count text)
                             consumed))%list).
  { induction texts as [|txt texts IH]; intros i st wst Ht Hc.
    - cbn. repeat split; try assumption. exists [].
      split; [reflexivity | now rewrite app_nil_r].
    - cbn [csv_loop write_loop map]. rewrite csv_article_eq, write_article_eq.
      unfold accepted, token_count. cbn [text].
      change (fst (tokenize_article plain_tokenizer txt))
        with (csv_token_count txt).
      assert (Hleb : (100 <=? csv_token_count txt)
                     = negb (csv_token_count txt <? 100))
        by (destruct (Z.leb_spec 100 (csv_token_count txt)),
              (Z.ltb_spec (csv_token_count txt) 100); simpl; lia).
      destruct (csv_token_count txt <? 100) eqn:Hlt; cbn [negb].
      + destruct (IH (i + 1) st wst Ht Hc) as (H1 & H2 & H3 & cs & E & Hr).
        repeat split; try assumption. exists (txt :: cs).
        split; [simpl; now rewrite <- E |].
        cbn [filter]. now rewrite Hleb.
      + cbv zeta. rewrite Ht.
        set (total := total_num_tokens wst + (csv_token_count txt + 1)).
        assert (Hlen : len (csv_rows st ++ [[csv_field txt]])
                       = count wst + 1).
        { unfold len in *. rewrite length_app. simpl. lia. }
        destruct (over_budget num_tokens total) eqn:Hover.
        * cbn [fst snd csv_total csv_rows total_num_tokens count].
          repeat split; try assumption; try reflexivity.
          exists [txt]. split; [reflexivity |].
          cbn [filter]. now rewrite Hleb.
        * assert (Hstep : forall progress,
                    let st' := mkCsv (csv_rows st ++ [[csv_field txt]])
                                     total progress in
                    let c := csv_loop num_tokens texts (i + 1) st' in
                    let w := write_loop plain_tokenizer num_tokens
                               (map (mkArticle title) texts)
                               (mkWriter
                                  (f_out wst
                                   ++ document plain_tokenizer
                                        (mkArticle title txt))
                                  (count wst + 1) total) in
                    csv_total (fst c) = total_num_tokens (fst w) /\
                    len (csv_rows (fst c)) = count (fst w) /\
                    map (mkArticle title) (snd c) = snd w /\
                    exists consumed,
                      (txt :: texts) = (consumed ++ snd c)%list /\
                      csv_rows (fst c) =
                        (csv_rows st ++
                         map (fun text => [csv_field text])
                             (filter
                                (fun text => 100 <=? csv_token_count text)
                                consumed))%list).
          { intros progress st' c w. subst c w.
            destruct (IH (i + 1) st'
                        (mkWriter
                           (f_out wst
                            ++ document plain_tokenizer (mkArticle title txt))
                           (count wst + 1) total))
              as (H1 & H2 & H3 & cs & E & Hr); [reflexivity | exact Hlen |].
            repeat split; try assumption. exists (txt :: cs).
            split; [simpl; now rewrite <- E |].
            cbn [filter]. rewrite Hleb. cbn [negb map]. rewrite Hr.
            subst st'. cbn [csv_rows]. now rewrite <- app_assoc. }
          destruct ((i mod 100000 =? 0) && (i >? 0)); apply Hstep. }
  destruct (H text_iter 0 (mkCsv [] 0 []) (mkWriter "" 0 0) eq_refl eq_refl)
    as (H1 & H2 & H3 & cs & E & Hr).
  repeat split; try assumption. exists cs. split; assumption.
Qed.

Lemma split_no_sep (sep : ascii) (s field : string) :
  In field (split sep s) -> has_char sep field = false.
Proof.
  revert field. induction s as [|c s IH]; intros field; simpl.
  - intros [<- | []]. reflexivity.
  - destruct (Ascii.eqb c sep) eqn:Hc.
    + intros [<- | H]; [reflexivity | now apply IH].
    + pose proof (split_not_nil sep s) as Hn.
      destruct (split sep s) as [|f fs]; [contradiction |].
      intros [<- | H].
      * simpl. rewrite Hc. apply IH. now left.
      * apply IH. now right.
Qed.

Lemma split_without_sep (sep : ascii) (s : string) :
  has_char sep s = false -> split sep s = [s].
Proof.
  induction s as [|c s IH]; [reflexivity |]. simpl.
  destruct (Ascii.eqb c sep); [discriminate |]. simpl.
  intros H. now rewrite IH.
Qed.

Lemma split_app_sep (sep : ascii) (s rest : string) :
  has_char sep s = false ->
  split sep (s ++ String sep rest) = s :: split sep rest.
Proof.
  induction s as [|c s IH]; simpl.
  - now rewrite Ascii.eqb_refl.
  - destruct (Ascii.eqb c sep); [discriminate |]. simpl.
    intros H. now rewrite IH.
Qed.

(** [join] undoes [split] the other way round too, on fields that do not
    hold the separator. *)
Lemma split_join (sep : ascii) (fields : list string) :
  fields <> [] ->
  (forall field, In field fields -> has_char sep field = false) ->
  split sep (join (String sep "") fields) = fields.
Proof.
  induction fields as [|f fields IH]; [easy |]. intros _ Hno.
  destruct fields as [|g fields].
  - simpl. apply split_without_sep, Hno. now left.
  - change (join (String sep "") (f :: g :: fields))
      with (f ++ String sep "" ++ join (String sep "") (g :: fields)).
    cbn [String.append]. rewrite split_app_sep by (apply Hno; now left).
    f_equal. apply IH; [easy |]. intros field H. apply Hno. now right.
Qed.

Lemma has_char_lstrip (c : ascii) (s : string) :
  has_char c s = false -> has_char c (lstrip s) = false.
Proof.
  induction s as [|d s IH]; [easy |]. cbn [lstrip]. intros H.
  destruct (isspace d); [| exact H]. apply IH. simpl in H.
  now apply orb_false_iff in H.
Qed.

Lemma has_char_rstrip (c : ascii) (s : string) :
  has_char c s = false -> has_char c (rstrip s) = false.
Proof.
  induction s as [|d s IH]; [easy |]. cbn [rstrip]. intros H.
  simpl in H. apply orb_false_iff in H as [Hd Hs].
  destruct (isspace d && is_empty (rstrip s)); [reflexivity |].
  simpl. now rewrite Hd, IH.
Qed.

Lemma csv_paragraphs (text : string) :
  snd (fold_left csv_paragraph_step (split NL text) (0, [])) =
  map strip (split NL text).
Proof.
  rewrite csv_fold_plain, tokenize_article_eq. reflexivity.
Qed.

(** X6. The field [wiki2csv] writes for a text can be cut back into its
    paragraphs: split at the newlines, it gives the paragraphs of the text,
    each stripped, as many as the text has. *)
Theorem csv_field_round_trip (text : string) :
  split NL (csv_field text) = map strip (split NL text) /\
  List.length (split NL (csv_field text)) = List.length (split NL text).
Proof.
  assert (H : split NL (csv_field text) = map strip (split NL text)).
  { unfold csv_field. rewrite csv_paragraphs. apply split_join.
    - pose proof (split_not_nil NL text).
      destruct (split NL text); [contradiction | discriminate].
    - intros field Hin. apply in_map_iff in Hin as (p & <- & Hp).
      unfold strip. apply has_char_rstrip, has_char_lstrip.
      now apply (split_no_sep NL text). }
  split; [exact H |]. now rewrite H, length_map.
Qed.

(** X7. When no paragraph of a text begins or ends with whitespace, the
    field [wiki2csv] writes for it is the text itself. *)
Theorem csv_field_unchanged (text : string)
    (Hstripped : forallb (fun p => String.eqb (strip p) p) (split NL text)
                 = true) :
  csv_field text = text.
Proof.
  unfold csv_field. rewrite csv_paragraphs.
  rewrite forallb_forall in Hstripped.
  rewrite (map_ext_in strip (fun p => p)).
  - rewrite map_id. apply join_split.
  - intros p Hp. now apply String.eqb_eq, Hstripped.
Qed.

Lemma csv_field_unchanged_witness :
  csv_field ("a b" ++ nl ++ nl ++ "c d e") = "a b" ++ nl ++ nl ++ "c d e".
Proof.
  apply csv_field_unchanged. reflexivity.
Defined.

Lemma csv_loop_progress (num_tokens : option Z) (text_iter : list string)
    (i0 : Z) (st : csv_writer) :
  0 <= i0 ->
  exists more,
    csv_progress (fst (csv_loop num_tokens text_iter i0 st)) =
      (csv_progress st ++ more)%list /\
    Forall (fun entry =>
              let '(i, total) := entry in
              i0 <= i /\ 0 < i /\ i mod 100000 = 0 /\
              (exists text,
                 nth_error text_iter (Z.to_nat (i - i0)) = Some text /\
                 100 <= csv_token_count text) /\
              over_budget num_tokens total = false) more.
Proof.
  revert i0 st. induction text_iter as [|txt texts IH]; intros i0 st Hi.
  - exists []. split; [simpl; now rewrite app_nil_r | constructor].
  - cbn [csv_loop]. rewrite csv_article_eq.
    assert (Hshift : forall i, i0 + 1 <= i ->
              nth_error (txt :: texts) (Z.to_nat (i - i0)) =
              nth_error texts (Z.to_nat (i - (i0 + 1)))).
    { intros i Hle. replace (i - i0) with (Z.succ (i - (i0 + 1))) by lia.
      rewrite Z2Nat.inj_succ by lia. reflexivity. }
    assert (Hlater : forall st',
              exists more,
                csv_progress (fst (csv_loop num_tokens texts (i0 + 1) st')) =
                  (csv_progress st' ++ more)%list /\
                Forall (fun entry =>
                          let '(i, total) := entry in
                          i0 <= i /\ 0 < i /\ i mod 100000 = 0 /\
                          (exists text,
                             nth_error (txt :: texts) (Z.to_nat (i - i0))
                               = Some text /\
                             100 <= csv_token_count text) /\
                          over_budget num_tokens total = false) more).
    { intros st'. destruct (IH (i0 + 1) st' ltac:(lia)) as (more & E & Hall).
      exists more. split; [exact E |].
      (* an entry of the tail has an index from [i0 + 1] *)
      revert Hall. apply Forall_impl. intros [i total].
      intros (Hle & Hpos & Hmod & (text & Hnth & Hacc) & Hover).
      repeat split; try assumption; try lia. exists text.
      split; [| assumption]. now rewrite Hshift. }
    destruct (csv_token_count txt <? 100) eqn:Hlt.
    + apply Hlater.
    + cbv zeta. destruct (over_budget num_tokens _) eqn:Hover.
      * exists []. cbn [fst csv_progress]. split;
          [now rewrite app_nil_r | constructor].
      * destruct ((i0 mod 100000 =? 0) && (i0 >? 0)) eqn:Hrep.
        -- destruct (Hlater (mkCsv (csv_rows st ++ [[csv_field txt]])
                               (csv_total st + (csv_token_count txt + 1))
                               (csv_progress st
                                ++ [(i0, csv_total st
                                         + (csv_token_count txt + 1))])))
             as (more & E & Hall).
           exists ((i0, csv_total st + (csv_token_count txt + 1)) :: more).
           split; [rewrite E; cbn [csv_progress];
                   now rewrite <- app_assoc |].
           constructor; [| exact Hall].
           apply andb_true_iff in Hrep as [Hmod Hpos].
           apply Z.eqb_eq in Hmod. apply Z.gtb_lt in Hpos.
           repeat split; try assumption; try lia. exists txt.
           rewrite Z.sub_diag. split; [reflexivity |].
           now apply Z.ltb_ge.
        -- destruct (Hlater (mkCsv (csv_rows st ++ [[csv_field txt]])
                               (csv_total st + (csv_token_count txt + 1))
                               (csv_progress st)))
             as (more & E & Hall).
           exists more. split; [exact E | exact Hall].
Qed.

(** X8. [wiki2csv] prints a progress line only at an index that is a
    positive multiple of 100000, and only when the text at that index was
    written (its count is at least 100) and did not carry the total over the
    budget: a rejected text at such an index gives no line, and fewer than
    100001 texts give none at all. *)
Theorem wiki2csv_progress (text_iter : list string) (num_tokens : option Z) :
  Forall (fun entry =>
            let '(i, total) := entry in
            0 < i /\ i mod 100000 = 0 /\
            (exists text,
               nth_error text_iter (Z.to_nat i) = Some text /\
               100 <= csv_token_count text) /\
            over_budget num_tokens total = false)
         (csv_progress (fst (wiki2csv text_iter num_tokens))) /\
  (len text_iter <= 100000 ->
     csv_progress (fst (wiki2csv text_iter num_tokens)) = []).
Proof.
  unfold wiki2csv.
  destruct (csv_loop_progress num_tokens text_iter 0 (mkCsv [] 0 [])
              ltac:(lia)) as (more & E & Hall).
  rewrite E. cbn [csv_progress app].
  assert (Hall' : Forall (fun entry =>
            let '(i, total) := entry in
            0 < i /\ i mod 100000 = 0 /\
            (exists text,
               nth_error text_iter (Z.to_nat i) = Some text /\
               100 <= csv_token_count text) /\
            over_budget num_tokens total = false) more).
  { revert Hall. apply Forall_impl. intros [i total].
    rewrite Z.sub_0_r. tauto. }
  split; [exact Hall' |]. intros Hlen.
  destruct more as [|[i total] more]; [reflexivity |]. exfalso.
  apply Forall_inv in Hall'.
  destruct Hall' as (Hpos & Hmod & (text & Hnth & _) & _).
  assert (Hlt : (Z.to_nat i < List.length text_iter)%nat)
    by (apply nth_error_Some; congruence).
  unfold len in Hlen.
  assert (100000 <= i).
  { destruct (Z.le_gt_cases 100000 i); [assumption |].
    rewrite Z.mod_small in Hmod by lia. lia. }
  lia.
Qed.

(** A progress line is printed for the text at index 100000 when it is
    written, and none when it is rejected. *)
Example wiki2csv_progress_example :
  csv_progress
    (fst (wiki2csv (List.repeat "" 100000 ++ [words 99])%list None))
    = [(100000, 101)] /\
  csv_progress
    (fst (wiki2csv (words 99 :: List.repeat "" 100000) None))
    = [].
Proof. vm_compute. split; reflexivity. Qed.

(** ** More on write_wikitext *)

Lemma budget_used_nonneg (mt : Tokenizer) (l : list article) :
  0 <= budget_used mt l.
Proof.
  induction l as [|a l IH]; [unfold budget_used; simpl; lia |].
  rewrite budget_used_cons. destruct (accepted mt a) eqn:Ha; [| exact IH].
  apply accepted_ge in Ha. lia.
Qed.

(** X9. Without a budget ([num_tokens] is [None]) a call takes the whole
    generator and writes every accepted article: the file is the blocks of
    all of them in order, and the generator is left exhausted. *)
Theorem write_wikitext_no_budget (mt : Tokenizer) (text_iter : list article) :
  write_wikitext text_iter mt None =
    (mkWriter (corpus mt (filter (accepted mt) text_iter))
              (len (filter (accepted mt) text_iter))
              (budget_used mt text_iter), []).
Proof.
  unfold write_wikitext.
  destruct (write_loop_run mt None text_iter (mkWriter "" 0 0))
    as [consumed [E Hout Hcount Htotal _ Hstop]].
  destruct (write_loop mt None text_iter (mkWriter "" 0 0)) as [w rest].
  cbn [fst snd f_out count total_num_tokens over_budget String.append] in *.
  assert (Hrest : rest = []).
  { destruct Hstop as [H | (pre & a & _ & _ & H)]; [exact H | discriminate]. }
  subst rest. rewrite app_nil_r in E. subst consumed.
  destruct w as [out n total]. cbn in *. subst. f_equal.
Qed.

Lemma write_loop_bounds (mt : Tokenizer) (budget : Z)
    (text_iter : list article) (st : writer) :
  total_num_tokens st <= budget ->
  101 * count st <= total_num_tokens st ->
  let w := fst (write_loop mt (Some budget) text_iter st) in
  (total_num_tokens w <= budget /\ 101 * count w <= total_num_tokens w
   /\ snd (write_loop mt (Some budget) text_iter st) = []) \/
  exists last,
    In last text_iter /\ accepted mt last = true /\
    total_num_tokens w - (token_count mt last + 1) <= budget
      < total_num_tokens w /\
    101 * (count w - 1) <= total_num_tokens w - (token_count mt last + 1).
Proof.
  revert st. induction text_iter as [|a it IH]; intros st Hle Hinv.
  - left. cbn. repeat split; assumption.
  - cbn [write_loop]. rewrite write_article_eq.
    destruct (accepted mt a) eqn:Ha.
    + pose proof (proj1 (accepted_ge mt a) Ha) as Hge.
      cbn [over_budget].
      destruct (Z.gtb_spec (total_num_tokens st + (token_count mt a + 1))
                           budget) as [Hover | Hunder].
      * right. exists a. cbn [fst count total_num_tokens].
        repeat split; try lia; try assumption. now left.
      * destruct (IH (mkWriter (f_out st ++ document mt a) (count st + 1)
                        (total_num_tokens st + (token_count mt a + 1))))
          as [H | (last & Hin & H)]; cbn [count total_num_tokens]; try lia.
        -- now left.
        -- right. exists last. split; [now right | exact H].
    + destruct (IH st Hle Hinv) as [H | (last & Hin & H)].
      * now left.
      * right. exists last. split; [now right | exact H].
Qed.

Lemma write_loop_overshoot (mt : Tokenizer) (budget : Z)
    (text_iter : list article) (st : writer) :
  total_num_tokens st <= budget ->
  let r := write_loop mt (Some budget) text_iter st in
  (total_num_tokens (fst r) <= budget /\ snd r = []) \/
  exists pre last,
    text_iter = (pre ++ last :: snd r)%list /\
    accepted mt last = true /\
    total_num_tokens (fst r) =
      total_num_tokens st + budget_used mt pre + (token_count mt last + 1) /\
    total_num_tokens st + budget_used mt pre <= budget
      < total_num_tokens (fst r).
Proof.
  revert st. induction text_iter as [|a it IH]; intros st Hle.
  - left. cbn. split; [assumption | reflexivity].
  - cbn [write_loop]. rewrite write_article_eq.
    destruct (accepted mt a) eqn:Ha.
    + cbn [over_budget].
      destruct (Z.gtb_spec (total_num_tokens st + (token_count mt a + 1))
                           budget) as [Hover | Hunder].
      * right. exists [], a. cbn [fst snd total_num_tokens app].
        unfold budget_used. cbn [filter map sum fold_right].
        repeat split; try assumption; lia.
      * destruct (IH (mkWriter (f_out st ++ document mt a) (count st + 1)
                        (total_num_tokens st + (token_count mt a + 1))))
          as [H | (pre & last & E & Hl & Ht & Hb)];
          cbn [total_num_tokens] in *; try lia.
        -- now left.
        -- right. exists (a :: pre), last.
           rewrite budget_used_cons, Ha.
           split; [simpl; now rewrite <- E |].
           split; [exact Hl |]. split; lia.
    + destruct (IH st Hle) as [H | (pre & last & E & Hl & Ht & Hb)].
      * now left.
      * right. exists (a :: pre), last. rewrite budget_used_cons, Ha.
        split; [simpl; now rewrite <- E |]. split; [exact Hl |].
        split; assumption.
Qed.

(** X10. A call with a budget that is not negative goes over it by less
    than one article: either the total stays within the budget and the
    generator is exhausted, or the call stopped right after an accepted
    article [last], leaving the generator at what follows it, and the total
    of the articles taken before [last] was still within the budget. *)
Theorem budget_overshoot (mt : Tokenizer) (budget : Z)
    (text_iter : list article) (Hbudget : 0 <= budget) :
  let r := write_wikitext text_iter mt (Some budget) in
  (total_num_tokens (fst r) <= budget /\ snd r = []) \/
  exists pre last,
    text_iter = (pre ++ last :: snd r)%list /\
    100 <= token_count mt last /\
    total_num_tokens (fst r) =
      budget_used mt pre + (token_count mt last + 1) /\
    total_num_tokens (fst r) - (token_count mt last + 1) <= budget
      < total_num_tokens (fst r).
Proof.
  unfold write_wikitext.
  destruct (write_loop_overshoot mt budget text_iter (mkWriter "" 0 0))
    as [H | (pre & last & E & Ha & Ht & Hb)];
    cbn [total_num_tokens] in *; try lia.
  - now left.
  - right. exists pre, last. split; [exact E |].
    split; [now apply accepted_ge |]. split; lia.
Qed.

Lemma budget_overshoot_witness :
  let a := mkArticle "A" (words 99) in
  let b := mkArticle "B" (words 149) in
  let r := write_wikitext [a; b; a] words_tokenizer (Some 200) in
  0 <= 200 /\ total_num_tokens (fst r) = 252 /\ snd r = [a] /\
  exists pre last,
    [a; b; a] = (pre ++ last :: snd r)%list /\
    100 <= token_count words_tokenizer last /\
    total_num_tokens (fst r) =
      budget_used words_tokenizer pre
      + (token_count words_tokenizer last + 1) /\
    total_num_tokens (fst r) - (token_count words_tokenizer last + 1) <= 200
      < total_num_tokens (fst r).
Proof.
  intros a b r. assert (Hb : 0 <= 200) by lia.
  split; [exact Hb |]. split; [vm_compute; reflexivity |].
  split; [vm_compute; reflexivity |].
  destruct (budget_overshoot words_tokenizer 200 [a; b; a] Hb)
    as [[Hle _] | H].
  - exfalso. vm_compute in Hle. apply Hle. reflexivity.
  - exact H.
Defined.

(** X11. Every document written adds at least 101 to the total, so a
    budget [b] that is not negative admits at most [b / 101 + 1]
    documents. *)
Theorem documents_per_budget (mt : Tokenizer) (budget : Z)
    (text_iter : list article) (Hbudget : 0 <= budget) :
  let w := fst (write_wikitext text_iter mt (Some budget)) in
  101 * count w <= total_num_tokens w /\
  count w <= budget / 101 + 1.
Proof.
  unfold write_wikitext.
  destruct (write_loop_bounds mt budget text_iter (mkWriter "" 0 0))
    as [(H1 & H2 & _) | (last & _ & Ha & H & Hc)];
    cbn [count total_num_tokens]; try lia.
  - split; [exact H2 |].
    assert (count (fst (write_loop mt (Some budget) text_iter
                          (mkWriter "" 0 0))) <= budget / 101)
      by (apply Z.div_le_lower_bound; lia).
    lia.
  - apply accepted_ge in Ha. split; [lia |].
    assert (count (fst (write_loop mt (Some budget) text_iter
                          (mkWriter "" 0 0))) - 1 <= budget / 101)
      by (apply Z.div_le_lower_bound; lia).
    lia.
Qed.

Lemma documents_per_budget_witness :
  let a := mkArticle "A" (words 99) in
  let w := fst (write_wikitext [a; a; a; a; a] words_tokenizer (Some 250)) in
  0 <= 250 /\ count w = 3 /\ count w <= 250 / 101 + 1.
Proof.
  intros a w. assert (Hb : 0 <= 250) by lia.
  split; [exact Hb |]. split; [vm_compute; reflexivity |].
  exact (proj2 (documents_per_budget words_tokenizer 250 [a; a; a; a; a] Hb)).
Defined.

Lemma write_loop_extends (mt : Tokenizer) (num_tokens : option Z)
    (text_iter : list article) (st : writer) :
  let r := write_loop mt num_tokens text_iter st in
  exists taken written,
    text_iter = (taken ++ snd r)%list /\
    f_out (fst r) = f_out st ++ written /\
    count st <= count (fst r) /\
    total_num_tokens st <= total_num_tokens (fst r).
Proof.
  destruct (write_loop_run mt num_tokens text_iter st)
    as [consumed [E Hout Hcount Htotal _ _]].
  exists consumed, (corpus mt (filter (accepted mt) consumed)).
  pose proof (budget_used_nonneg mt consumed). unfold len in Hcount.
  repeat split; try assumption; lia.
Qed.

(** X12. A larger budget never gives less: with [b <= b'], the call with
    [b'] takes at least the articles the call with [b] takes, its file
    begins with the file of the call with [b], and it counts at least as
    many documents and tokens. *)
Theorem budget_monotone (mt : Tokenizer) (b b' : Z)
    (text_iter : list article) (Hle : b <= b') :
  let r := write_wikitext text_iter mt (Some b) in
  let r' := write_wikitext text_iter mt (Some b') in
  exists more written,
    snd r = (more ++ snd r')%list /\
    f_out (fst r') = f_out (fst r) ++ written /\
    count (fst r) <= count (fst r') /\
    total_num_tokens (fst r) <= total_num_tokens (fst r').
Proof.
  unfold write_wikitext. generalize (mkWriter "" 0 0) as st.
  induction text_iter as [|a it IH]; intros st.
  - exists [], "". cbn. rewrite append_empty_r. repeat split; lia.
  - cbn [write_loop]. rewrite !write_article_eq.
    destruct (accepted mt a); [| apply IH].
    cbn [over_budget].
    set (st1 := mkWriter (f_out st ++ document mt a) (count st + 1)
                  (total_num_tokens st + (token_count mt a + 1))).
    destruct (Z.gtb_spec (total_num_tokens st + (token_count mt a + 1)) b')
      as [Hover' | Hunder'].
    + destruct (Z.gtb_spec (total_num_tokens st + (token_count mt a + 1)) b)
        as [_ | Hunder]; [| lia].
      exists [], "". cbn [fst snd app]. rewrite append_empty_r.
      repeat split; lia.
    + destruct (Z.gtb_spec (total_num_tokens st + (token_count mt a + 1)) b)
        as [Hover | Hunder]; [| apply IH].
      destruct (write_loop_extends mt (Some b') it st1)
        as (taken & written & E & Hout & Hcount & Htotal).
      exists taken, written. cbn [fst snd]. repeat split; assumption.
Qed.

Lemma budget_monotone_witness :
  let a := mkArticle "A" (words 99) in
  let r := write_wikitext [a; a; a] words_tokenizer (Some 100) in
  let r' := write_wikitext [a; a; a] words_tokenizer (Some 150) in
  100 <= 150 /\ count (fst r) = 1 /\ count (fst r') = 2 /\
  exists more written,
    snd r = (more ++ snd r')%list /\
    f_out (fst r') = f_out (fst r) ++ written /\
    count (fst r) <= count (fst r') /\
    total_num_tokens (fst r) <= total_num_tokens (fst r').
Proof.
  intros a r r'. assert (Hle : 100 <= 150) by lia.
  split; [exact Hle |]. split; [vm_compute; reflexivity |].
  split; [vm_compute; reflexivity |].
  exact (budget_monotone words_tokenizer 100 150 [a; a; a] Hle).
Defined.

Lemma newlines_app (s t : string) :
  newlines (s ++ t) = newlines s + newlines t.
Proof.
  induction s as [|c s IH]; simpl; [reflexivity | rewrite IH; lia].
Qed.

Lemma newlines_none (s : string) : has_char NL s = false -> newlines s = 0.
Proof.
  induction s as [|c s IH]; [reflexivity |]. simpl.
  destruct (Ascii.eqb c NL); [discriminate |]. simpl. exact IH.
Qed.

Lemma newlines_lines (lines : list string) :
  forallb (fun line => negb (has_char NL line)) lines = true ->
  newlines (cat (map (fun line => line ++ nl) lines)) = len lines.
Proof.
  unfold len. induction lines as [|line lines IH]; [reflexivity |].
  cbn [forallb map cat List.length]. intros H.
  apply andb_true_iff in H as [Hline Hrest]. apply negb_true_iff in Hline.
  rewrite !newlines_app, (newlines_none line Hline), (IH Hrest).
  change (newlines nl) with 1. lia.
Qed.

Lemma token_count_body (mt : Tokenizer) (a : article) :
  token_count mt a = body_tokens mt a + len (tokenized_paragraphs mt a).
Proof.
  unfold token_count, body_tokens, tokenized_paragraphs.
  rewrite tokenize_article_eq. cbn [fst snd].
  rewrite sum_map_succ, map_map. unfold len. now rewrite length_map.
Qed.

(** What an article adds to the total is its tokens and the newlines of
    its block. *)
Lemma document_newlines (mt : Tokenizer) (a : article) :
  one_line mt a = true ->
  token_count mt a + 1 = body_tokens mt a + newlines (document mt a).
Proof.
  unfold one_line. intros H. apply andb_true_iff in H as [Ht Hp].
  apply negb_true_iff in Ht. unfold document.
  rewrite !newlines_app, (newlines_lines _ Hp), token_count_body.
  rewrite (newlines_none (strip (title a)) Ht).
  change (newlines "= ") with 0. change (newlines " =") with 0.
  change (newlines nl) with 1. lia.
Qed.

(** X13. When the titles and the tokenized paragraphs hold no newline, the
    total a call reports counts the file it wrote: it is the number of
    tokens of the paragraphs written plus the number of newlines of the
    file (one per header and one per paragraph); the tokens of the headers
    are not counted. *)
Theorem total_counts_the_file (mt : Tokenizer) (num_tokens : option Z)
    (text_iter : list article)
    (Hlines : forallb (one_line mt) text_iter = true) :
  let w := fst (write_wikitext text_iter mt num_tokens) in
  exists written,
    f_out w = corpus mt written /\
    count w = len written /\
    total_num_tokens w =
      sum (map (body_tokens mt) written) + newlines (f_out w).
Proof.
  unfold write_wikitext.
  destruct (write_loop_run mt num_tokens text_iter (mkWriter "" 0 0))
    as [consumed [E Hout Hcount Htotal _ _]].
  cbn [f_out count total_num_tokens String.append] in *.
  exists (filter (accepted mt) consumed).
  split; [exact Hout |]. split; [rewrite Hcount; lia |].
  rewrite Htotal, Hout. unfold budget_used, corpus.
  assert (Hall : forall a, In a (filter (accepted mt) consumed) ->
                           one_line mt a = true).
  { intros a Ha. apply filter_In in Ha as [Ha _].
    rewrite forallb_forall in Hlines. apply Hlines.
    rewrite E. apply in_or_app. now left. }
  clear E Hout Hcount Htotal Hlines. revert Hall.
  generalize (filter (accepted mt) consumed) as l. intros l Hall.
  induction l as [|a l IH]; [reflexivity |].
  cbn [map sum fold_right cat]. fold (sum (map (fun a => token_count mt a + 1) l)).
  fold (sum (map (body_tokens mt) l)).
  rewrite newlines_app, (document_newlines mt a) by (apply Hall; now left).
  specialize (IH (fun b Hb => Hall b (or_intror Hb))). lia.
Qed.

Lemma total_counts_the_file_witness :
  let a := mkArticle "A" (words 60 ++ nl ++ words 60) in
  let w := fst (write_wikitext [a] words_tokenizer None) in
  total_num_tokens w = 123 /\ newlines (f_out w) = 3 /\
  exists written,
    f_out w = corpus words_tokenizer written /\
    count w = len written /\
    total_num_tokens w =
      sum (map (body_tokens words_tokenizer) written) + newlines (f_out w).
Proof.
  intros a w. split; [vm_compute; reflexivity |].
  split; [vm_compute; reflexivity |].
  apply (total_counts_the_file words_tokenizer None [a]).
  vm_compute. reflexivity.
Defined.

(** ** More on findTotalTokens *)

Lemma scanned_nonneg (mt : Tokenizer) (a : article) : 0 <= scanned mt a.
Proof.
  unfold scanned.
  induction (filter (fun p => len (tokenize (strip p)) + 1 >=? 100)
                    (split NL (text a))) as [|p l IH]; simpl; [lia |].
  unfold len at 1. fold (sum (map (fun p => len (tokenize (strip p))) l)).
  lia.
Qed.

Lemma sum_scanned_nonneg (mt : Tokenizer) (l : list article) :
  0 <= sum (map (scanned mt) l).
Proof.
  induction l as [|a l IH]; simpl; [lia |].
  pose proof (scanned_nonneg mt a). fold (sum (map (scanned mt) l)). lia.
Qed.

Lemma get_texts_app (root root' : tree) :
  get_texts (root ++ root')%list = (get_texts root ++ get_texts root')%list.
Proof. unfold get_texts. apply flat_map_app. Qed.

(** X14. [findTotalTokens] walks the tree as [get_texts] does: it visits
    exactly the articles [get_texts] yields and returns the sum, over those
    of their paragraphs that have 99 tokens or more on their own, of the
    number of tokens of the paragraph. The total is never negative and adds
    up over the directories of the tree. *)
Theorem scanner_total (root : tree) (mt : Tokenizer) :
  findTotalTokens root mt = sum (map (scanned mt) (get_texts root)) /\
  0 <= findTotalTokens root mt /\
  forall root', findTotalTokens (root ++ root')%list mt =
                findTotalTokens root mt + findTotalTokens root' mt.
Proof.
  split; [apply findTotalTokens_eq |]. split.
  - rewrite findTotalTokens_eq. apply sum_scanned_nonneg.
  - intros root'. rewrite !findTotalTokens_eq, get_texts_app, map_app.
    apply sum_app.
Qed.

(** The counts of one article on the token counts of its paragraphs: what
    the scanner adds is at most what the writer counts less the number of
    paragraphs, and is zero unless the writer counts 100 or more. *)
Lemma scanned_weights (ws : list Z) :
  (forall w, In w ws -> 0 <= w) ->
  let kept := sum (filter (fun w => w + 1 >=? 100) ws) in
  let counted := sum (map (fun w => w + 1) ws) in
  0 <= kept /\ kept + len ws <= counted /\ (0 < kept -> 100 <= counted).
Proof.
  unfold len. induction ws as [|w ws IH]; intros Hpos; [simpl; lia |].
  destruct IH as (H0 & Hle & Hbig); [intros v Hv; apply Hpos; now right |].
  pose proof (Hpos w (or_introl eq_refl)) as Hw.
  cbn [filter map sum fold_right List.length].
  fold (sum (map (fun w => w + 1) ws)).
  destruct (Z.geb_spec (w + 1) 100); cbn [sum fold_right];
    fold (sum (filter (fun w => w + 1 >=? 100) ws)); lia.
Qed.

Lemma scanned_le (mt : Tokenizer) (a : article) :
  forallb (fun p => len (tokenize (strip p))
                    =? len (tokens_of (tokenize_str (strip p))))
          (split NL (text a)) = true ->
  scanned mt a <= (if accepted mt a then token_count mt a - 1 else 0).
Proof.
  intros Hcons. rewrite forallb_forall in Hcons.
  unfold scanned, token_count. rewrite tokenize_article_eq. cbn [fst].
  assert (Hc : accepted mt a = negb (token_count mt a <? 100)) by reflexivity.
  unfold token_count in Hc. rewrite tokenize_article_eq in Hc. cbn [fst] in Hc.
  rewrite Hc. clear Hc.
  set (ps := split NL (text a)) in *.
  assert (Hne : 1 <= len ps).
  { subst ps. pose proof (split_not_nil NL (text a)).
    unfold len. destruct (split NL (text a)); [contradiction | simpl; lia]. }
  set (weight := fun p => len (tokenize (strip p))).
  assert (Hmap : map (fun p => len (tokens_of (tokenize_str (strip p))) + 1) ps
                 = map (fun w => w + 1) (map weight ps)).
  { rewrite map_map. apply map_ext_in. intros p Hp. subst weight. cbv beta.
    specialize (Hcons p Hp). apply Z.eqb_eq in Hcons. lia. }
  assert (Hfil : map weight (filter (fun p => weight p + 1 >=? 100) ps)
                 = filter (fun w => w + 1 >=? 100) (map weight ps)).
  { clear. induction ps as [|p ps IH]; [reflexivity |]. simpl.
    destruct (weight p + 1 >=? 100); simpl; now rewrite IH. }
  rewrite Hmap. change (map (fun p => len (tokenize (strip p))))
    with (map weight). change (fun p => len (tokenize (strip p)) + 1 >=? 100)
    with (fun p => weight p + 1 >=? 100). rewrite Hfil.
  destruct (scanned_weights (map weight ps)) as (H0 & Hle & Hbig).
  { intros w Hw. apply in_map_iff in Hw as (p & <- & _). subst weight.
    unfold len. lia. }
  unfold len in Hle, Hne. rewrite length_map in Hle.
  destruct (Z.ltb_spec (sum (map (fun w => w + 1) (map weight ps))) 100);
    cbn [negb]; lia.
Qed.

(** X15. With a tokenizer whose list of tokens is as long as the tokens of
    its joined form, [findTotalTokens] never returns more than what
    [write_wikitext] counts for the articles it accepts: it stays below that
    sum by at least one per accepted article, so the budgets planned from a
    scan are smaller than the corpus the writer would count. *)
Theorem scanner_underestimates (root : tree) (mt : Tokenizer)
    (Hcons : consistent mt root = true) :
  findTotalTokens root mt + len (filter (accepted mt) (get_texts root))
  <= accepted_tokens mt root.
Proof.
  rewrite findTotalTokens_eq. unfold accepted_tokens, consistent in *.
  rewrite forallb_forall in Hcons. unfold len.
  induction (get_texts root) as [|a l IH]; [simpl; lia |].
  pose proof (scanned_le mt a (Hcons a (or_introl eq_refl))) as Ha.
  specialize (IH (fun b Hb => Hcons b (or_intror Hb))).
  cbn [map sum fold_right filter]. fold (sum (map (scanned mt) l)).
  destruct (accepted mt a); cbn [map sum fold_right List.length];
    fold (sum (map (token_count mt) (filter (accepted mt) l))); lia.
Qed.

Lemma scanner_underestimates_witness :
  let root := [ [ [mkArticle "A" (words 120); two_paragraphs] ] ] in
  consistent words_tokenizer root = true /\
  findTotalTokens root words_tokenizer = 120 /\
  accepted_tokens words_tokenizer root = 243 /\
  findTotalTokens root words_tokenizer
  + len (filter (accepted words_tokenizer) (get_texts root))
  <= accepted_tokens words_tokenizer root.
Proof.
  intros root.
  assert (Hcons : consistent words_tokenizer root = true)
    by (vm_compute; reflexivity).
  split; [exact Hcons |]. split; [vm_compute; reflexivity |].
  split; [vm_compute; reflexivity |].
  exact (scanner_underestimates root words_tokenizer Hcons).
Defined.

(** ** More on get_splits *)

Module Binary64Exact.
Import PyFloat.

Lemma Zdigits2_ge (m k : Z) : 0 <= k -> 2 ^ k <= m -> k < Zdigits2 m.
Proof.
  intros Hk Hm. assert (0 < 2 ^ k) by (apply Z.pow_pos_nonneg; lia).
  pose proof (Binary64.Zdigits2_lt m ltac:(lia)) as Hlt.
  pose proof (Binary64.Zdigits2_nonneg m).
  destruct (Z.lt_ge_cases k (Zdigits2 m)) as [|Hge]; [assumption |].
  assert (2 ^ Zdigits2 m <= 2 ^ k) by (apply Z.pow_le_mono_r; lia). lia.
Qed.

(** The steps of [binary_round_aux] on a mantissa that is not negative:
    the exponent [e1] and mantissa [m1] after the first shift, the rounded
    mantissa [m2], and the exponent [e2] after the second shift. *)
Lemma binary_round_aux_steps (s : bool) (m e : Z) (l : location) :
  0 <= m ->
  exists e1 m2 e2,
    e1 = Z.max e (fexp prec emax (Zdigits2 m + e)) /\
    (m2 = m / 2 ^ (e1 - e) \/ m2 = m / 2 ^ (e1 - e) + 1) /\
    e2 = Z.max e1 (fexp prec emax (Zdigits2 m2 + e1)) /\
    binary_round_aux prec emax s m e l =
      match m2 / 2 ^ (e2 - e1) with
      | Z0 => S754_zero s
      | Zpos p =>
          if e2 <=? emax - prec then S754_finite s p e2 else S754_infinity s
      | Zneg _ => S754_nan
      end.
Proof.
  intros Hm. unfold binary_round_aux.
  pose proof (Binary64.shr_fexp_spec m e l Hm) as [He1 Hm1].
  destruct (shr_fexp prec emax m e l) as [mrs1 e1]. cbn [fst snd] in *.
  set (m2 := round_nearest_even (shr_m mrs1) (loc_of_shr_record mrs1)).
  assert (Hp1 : 0 < 2 ^ (e1 - e)) by (apply Z.pow_pos_nonneg; lia).
  assert (Hm1' : 0 <= shr_m mrs1) by (rewrite Hm1; apply Z.div_pos; lia).
  assert (Hm2 : 0 <= m2 /\ (m2 = shr_m mrs1 \/ m2 = shr_m mrs1 + 1)).
  { subst m2.
    destruct (Binary64.round_nearest_even_cases (shr_m mrs1)
                (loc_of_shr_record mrs1)) as [-> | ->]; lia. }
  destruct Hm2 as [Hm2 Hcase].
  pose proof (Binary64.shr_fexp_spec m2 e1 loc_Exact Hm2) as [He2 Hm3].
  destruct (shr_fexp prec emax m2 e1 loc_Exact) as [mrs2 e2].
  cbn [fst snd] in *.
  exists e1, m2, e2. rewrite <- Hm1, <- Hm3. repeat split; assumption.
Qed.

(** A mantissa of at most 53 digits with an exponent in range is not
    rounded. *)
Lemma binary_round_aux_exact (s : bool) (m : positive) (e : Z) :
  Zpos (digits2_pos m) <= 53 -> -1074 <= e <= 971 ->
  binary_round_aux prec emax s (Zpos m) e loc_Exact = S754_finite s m e.
Proof.
  intros Hd He. unfold binary_round_aux, shr_fexp, shr.
  cbn [Zdigits2].
  assert (Hf : fexp prec emax (Zpos (digits2_pos m) + e) - e <= 0)
    by (unfold fexp, emin, prec, emax; lia).
  destruct (fexp prec emax (Zpos (digits2_pos m) + e) - e) eqn:Hn; try lia;
    cbn [shr_record_of_loc loc_of_shr_record shr_m round_nearest_even
         Zdigits2]; rewrite Hn; cbn [shr_m];
    destruct (Z.leb_spec e (emax - prec)); unfold prec, emax in *;
    try reflexivity; lia.
Qed.

(** [float(z)] is exact for an integer below [2 ^ 53]: the mantissa is [z]
    shifted to 53 digits. *)
Lemma of_int_exact (p : positive) :
  Zpos p < 2 ^ 53 ->
  exists m e,
    of_int (Zpos p) = Some (S754_finite false m e) /\
    -52 <= e <= 0 /\ Zpos m = Zpos p * 2 ^ (- e) /\
    2 ^ 52 <= Zpos m < 2 ^ 53.
Proof.
  intros Hp. unfold of_int. cbn [binary_normalize]. unfold binary_round.
  pose proof (Binary64.digits2_pos_bounds p) as [Hlow Hup].
  assert (Hd : 1 <= Zpos (digits2_pos p) <= 53).
  { split; [lia |]. apply (Binary64.Zdigits2_le (Zpos p)); lia. }
  unfold shl_align.
  assert (Hf : fexp prec emax (Zpos (digits2_pos p) + 0)
               = Zpos (digits2_pos p) - 53)
    by (unfold fexp, emin, prec, emax; lia).
  rewrite Hf.
  destruct (Zpos (digits2_pos p) - 53 - 0) as [|d|d] eqn:Hn; try lia.
  - (* 53 digits already *)
    assert (Hd53 : Zpos (digits2_pos p) = 53) by lia.
    rewrite binary_round_aux_exact by lia.
    exists p, 0. rewrite Hd53 in Hlow. simpl in Hlow.
    repeat split; try lia.
  - assert (Hm : Zpos (Pos.iter xO p d) = Zpos p * 2 ^ Zpos d)
      by apply Binary64.iter_xO.
    assert (Hpow : 2 ^ (Zpos (digits2_pos p) - 1) * 2 ^ Zpos d = 2 ^ 52
                   /\ 2 ^ Zpos (digits2_pos p) * 2 ^ Zpos d = 2 ^ 53).
    { rewrite <- !Z.pow_add_r by lia. split; f_equal; lia. }
    assert (Hpd : 0 < 2 ^ Zpos d) by (apply Z.pow_pos_nonneg; lia).
    assert (Hrange : 2 ^ 52 <= Zpos (Pos.iter xO p d) < 2 ^ 53).
    { rewrite Hm. destruct Hpow as [<- <-]. split.
      - apply Z.mul_le_mono_nonneg_r; lia.
      - apply Z.mul_lt_mono_pos_r; lia. }
    rewrite binary_round_aux_exact.
    + exists (Pos.iter xO p d), (Zpos (digits2_pos p) - 53).
      repeat split; try lia. rewrite Hm. do 2 f_equal. lia.
    + apply (Binary64.Zdigits2_le (Zpos (Pos.iter xO p d))); lia.
    + lia.
Qed.

End Binary64Exact.

(** [int(x * 0.1)] for a float [x] that is exactly the integer [z], from 1
    to below [2 ^ 51]: the rounding of the product does not reach the next
    integer. *)
Lemma to_int_mul_tenth (z : positive) (m : positive) (e : Z) :
  Zpos z < 2 ^ 51 -> -52 <= e <= 0 -> Zpos m = Zpos z * 2 ^ (- e) ->
  2 ^ 52 <= Zpos m < 2 ^ 53 ->
  PyFloat.to_int (PyFloat.mul (S754_finite false m e) PyFloat.tenth)
  = Some (Zpos z / 10).
Proof.
  intros Hz He Hm Hrange. unfold PyFloat.mul, PyFloat.tenth.
  cbn [SFmul xorb]. set (c := 7205759403792794%positive).
  set (M := Zpos (m * c)).
  assert (HM : M = Zpos z * 2 ^ (- e) * 7205759403792794)
    by (subst M c; rewrite Pos2Z.inj_mul, Hm; reflexivity).
  set (E := 2 ^ (- e)) in *.
  assert (HE : 0 < E) by (apply Z.pow_pos_nonneg; lia).
  set (q := Zpos z / 10).
  assert (Hq : 10 * q <= Zpos z < 10 * q + 10).
  { pose proof (Z.div_mod (Zpos z) 10 ltac:(lia)).
    pose proof (Z.mod_pos_bound (Zpos z) 10 ltac:(lia)). subst q. lia. }
  assert (Hq0 : 0 <= q) by lia.
  (* the product has 105 or 106 digits *)
  assert (HdM : 105 <= Zdigits2 M <= 106).
  { assert (2 ^ 104 <= M < 2 ^ 106).
    { subst M c. rewrite Pos2Z.inj_mul.
      change (2 ^ 104) with (2 ^ 52 * 2 ^ 52).
      change (2 ^ 106) with (2 ^ 53 * 2 ^ 53).
      assert (2 ^ 52 <= 7205759403792794 < 2 ^ 53) by (split; reflexivity || discriminate).
      split; [apply Z.mul_le_mono_nonneg; lia |].
      apply Z.mul_lt_mono_nonneg; lia. }
    split.
    - pose proof (Binary64Exact.Zdigits2_ge M 104 ltac:(lia) ltac:(lia)). lia.
    - apply Binary64.Zdigits2_le; lia. }
  destruct (Binary64Exact.binary_round_aux_steps false M (e + -56) loc_Exact)
    as (e1 & m2 & e2 & He1 & Hm2 & He2 & ->); [subst M; lia |].
  unfold fexp, emin, PyFloat.prec, PyFloat.emax in *.
  set (n := e1 - (e + -56)) in *. set (k := - e1).
  assert (Hn : 52 <= n <= 53) by lia.
  assert (Hk : 3 <= k) by lia.
  assert (Hnk : 2 ^ n * 2 ^ k = 2 ^ 56 * E).
  { subst E. rewrite <- !Z.pow_add_r by lia. f_equal. lia. }
  assert (Hpn : 0 < 2 ^ n) by (apply Z.pow_pos_nonneg; lia).
  assert (Hpk : 0 < 2 ^ k) by (apply Z.pow_pos_nonneg; lia).
  assert (Hn53 : 2 ^ n <= 2 ^ 53) by (apply Z.pow_le_mono_r; lia).
  set (m1 := M / 2 ^ n) in *.
  (* the mantissa before rounding lies strictly inside the unit interval
     above [q] *)
  assert (Hlow : 2 ^ k * q <= m1).
  { subst m1. apply Z.div_le_lower_bound; [lia |].
    rewrite Z.mul_assoc, Hnk, HM.
    assert (2 ^ 56 * q <= Zpos z * 7205759403792794) by lia.
    nia. }
  assert (Hup : m1 + 1 < 2 ^ k * (q + 1)).
  { cut (m1 < 2 ^ k * (q + 1) - 1); [lia |].
    subst m1. apply Z.div_lt_upper_bound; [lia |].
    rewrite Z.mul_sub_distr_l, Z.mul_assoc, Hnk, HM.
    assert (Zpos z * 7205759403792796 < 2 ^ 56 * (q + 1)) by lia.
    assert (2 ^ n <= 2 * (Zpos z * E)) by lia.
    nia. }
  assert (Hm2' : 2 ^ k * q <= m2 < 2 ^ k * (q + 1)) by lia.
  assert (Hq2 : m2 / 2 ^ k = q).
  { apply Z.le_antisymm.
    - cut (m2 / 2 ^ k < q + 1); [lia |]. apply Z.div_lt_upper_bound; lia.
    - apply Z.div_le_lower_bound; lia. }
  (* the second shift is by one digit at most *)
  assert (Hm1 : 0 <= m1) by (subst m1; apply Z.div_pos; lia).
  assert (Hd1 : Zdigits2 m1 <= 53).
  { pose proof (Binary64.Zdigits2_div M n ltac:(subst M; lia) ltac:(lia)).
    fold m1 in H. lia. }
  assert (Hd2 : 0 <= Zdigits2 m2 <= 54).
  { split; [apply Binary64.Zdigits2_nonneg |].
    destruct Hm2 as [-> | ->]; [lia |].
    pose proof (Binary64.Zdigits2_succ m1 Hm1). lia. }
  set (j := e2 - e1) in *.
  assert (Hj : 0 <= j <= 1) by lia.
  assert (Hpj : 0 < 2 ^ j) by (apply Z.pow_pos_nonneg; lia).
  assert (Hdiv : m2 / 2 ^ j / 2 ^ (k - j) = q).
  { rewrite Z.div_div by (try apply Z.pow_pos_nonneg; lia).
    rewrite <- Z.pow_add_r by lia. replace (j + (k - j)) with k by lia.
    exact Hq2. }
  assert (Hshift : forall a, Z.shiftl a e2 = a / 2 ^ (k - j)).
  { intros a. replace e2 with (- (k - j)) by lia.
    rewrite Z.shiftl_opp_r. apply Z.shiftr_div_pow2. lia. }
  destruct (m2 / 2 ^ j) as [|p3|p3] eqn:H3.
  - cbn [PyFloat.to_int]. rewrite <- Hdiv. now rewrite Z.div_0_l by lia.
  - destruct (Z.leb_spec e2 (1024 - 53)); [| lia].
    cbn [PyFloat.to_int]. now rewrite Hshift, Hdiv.
  - assert (0 <= m2 / 2 ^ j) by (apply Z.div_pos; lia). lia.
Qed.

(** The plan for the fraction 0.1 in integers. *)
Lemma get_splits_tenth_eq (tokens_size : Z) :
  0 <= tokens_size < 2 ^ 51 ->
  get_splits tokens_size PyFloat.tenth =
    Some (tokens_size - 2 * (tokens_size / 10),
          tokens_size / 10, tokens_size / 10).
Proof.
  intros Hsize.
  destruct tokens_size as [|z|z]; [reflexivity | | lia].
  destruct (Binary64Exact.of_int_exact z) as (m & e & Hx & He & Hm & Hrange).
  { apply Z.lt_trans with (2 ^ 51); [lia | reflexivity]. }
  unfold get_splits. rewrite Hx.
  rewrite (to_int_mul_tenth z m e) by (try assumption; lia).
  reflexivity.
Qed.

(** X16. For a token count from 0 to below [2 ^ 51] and the fraction 0.1 of
    [main], the float arithmetic of [get_splits] gives the integer plan:
    valid and test each get a tenth of the count rounded down, and train
    gets the rest, which is at least eight tenths of the count. *)
Theorem get_splits_tenth (tokens_size : Z)
    (Hsize : 0 <= tokens_size < 2 ^ 51) :
  (get_splits tokens_size PyFloat.tenth =
     Some (tokens_size - 2 * (tokens_size / 10),
           tokens_size / 10, tokens_size / 10)) /\
  (10 * (tokens_size / 10) <= tokens_size < 10 * (tokens_size / 10) + 10) /\
  (8 * tokens_size <= 10 * (tokens_size - 2 * (tokens_size / 10))).
Proof.
  split; [now apply get_splits_tenth_eq |].
  pose proof (Z.div_mod tokens_size 10 ltac:(lia)).
  pose proof (Z.mod_pos_bound tokens_size 10 ltac:(lia)). lia.
Qed.

Lemma get_splits_tenth_witness :
  (0 <= 123456789 < 2 ^ 51) /\
  get_splits 123456789 PyFloat.tenth = Some (98765433, 12345678, 12345678).
Proof.
  assert (H : 0 <= 123456789 < 2 ^ 51) by (split; [discriminate | reflexivity]).
  split; [exact H |]. exact (proj1 (get_splits_tenth 123456789 H)).
Defined.

(** Beyond [2 ^ 53] the float product can leave the integer plan: here the
    split is one more than the tenth. *)
Example get_splits_large_count :
  get_splits (10 ^ 17 + 10) PyFloat.tenth =
    Some (80000000000000006, 10000000000000002, 10000000000000002) /\
  (10 ^ 17 + 10) / 10 = 10000000000000001.
Proof. vm_compute. split; reflexivity. Qed.

Lemma binary_round_aux_opp (s : bool) (m e : Z) (l : location) :
  binary_round_aux PyFloat.prec PyFloat.emax (negb s) m e l =
  SFopp (binary_round_aux PyFloat.prec PyFloat.emax s m e l).
Proof.
  unfold binary_round_aux.
  destruct (shr_fexp PyFloat.prec PyFloat.emax m e l) as [mrs1 e1].
  destruct (shr_fexp PyFloat.prec PyFloat.emax _ e1 loc_Exact) as [mrs2 e2].
  destruct (shr_m mrs2); [reflexivity | | reflexivity].
  destruct (e2 <=? PyFloat.emax - PyFloat.prec); reflexivity.
Qed.

Lemma mul_opp (x y : spec_float) :
  PyFloat.mul (SFopp x) y = SFopp (PyFloat.mul x y).
Proof.
  unfold PyFloat.mul.
  destruct x as [sx | sx | | sx mx ex], y as [sy | sy | | sy my ey];
    cbn [SFmul SFopp]; try reflexivity;
    try (now destruct sx, sy).
  rewrite <- binary_round_aux_opp. now destruct sx, sy.
Qed.

Lemma to_int_opp (x : spec_float) :
  PyFloat.to_int (SFopp x) =
  match PyFloat.to_int x with
  | Some z => Some (- z)
  | None => None
  end.
Proof.
  destruct x as [s | s | | s m e]; try reflexivity.
  cbn [SFopp PyFloat.to_int]. destruct s; cbn [negb]; f_equal; lia.
Qed.

Lemma of_int_opp (p : positive) :
  PyFloat.of_int (Zneg p) =
  match PyFloat.of_int (Zpos p) with
  | Some x => Some (SFopp x)
  | None => None
  end.
Proof.
  unfold PyFloat.of_int. cbn [binary_normalize]. unfold binary_round.
  destruct (shl_align p 0 _) as [mz ez].
  change true with (negb false). rewrite binary_round_aux_opp.
  destruct (binary_round_aux PyFloat.prec PyFloat.emax false (Zpos mz) ez
              loc_Exact); reflexivity.
Qed.

(** X17. [get_splits] is odd in the count: for the opposite count it
    returns the opposite budgets, and raises when it raises for the count.
    The split of a negative count is thus rounded towards zero. *)
Theorem get_splits_opp (tokens_size : Z) (fraction : spec_float) :
  get_splits (- tokens_size) fraction =
  match get_splits tokens_size fraction with
  | Some (train, valid, test) => Some (- train, - valid, - test)
  | None => None
  end.
Proof.
  assert (H : forall p,
            get_splits (Zneg p) fraction =
            match get_splits (Zpos p) fraction with
            | Some (train, valid, test) => Some (- train, - valid, - test)
            | None => None
            end).
  { intros p. unfold get_splits. rewrite of_int_opp.
    destruct (PyFloat.of_int (Zpos p)) as [x|]; [| reflexivity].
    rewrite mul_opp, to_int_opp.
    destruct (PyFloat.to_int (PyFloat.mul x fraction)) as [split|];
      [| reflexivity].
    do 2 f_equal. f_equal. lia. }
  destruct tokens_size as [|p|p]; cbn [Z.opp].
  - unfold get_splits. cbn [PyFloat.of_int binary_normalize].
    destruct (PyFloat.to_int (PyFloat.mul (S754_zero false) fraction))
      as [split|] eqn:Hs; [| reflexivity].
    assert (split = 0).
    { destruct fraction; cbn in Hs; congruence. }
    subst split. reflexivity.
  - apply H.
  - rewrite H.
    destruct (get_splits (Zpos p) fraction) as [[[train valid] test]|];
      [| reflexivity].
    now rewrite !Z.opp_involutive.
Qed.

Lemma of_int_overflow (p : positive) :
  2 ^ 1024 <= Zpos p -> PyFloat.of_int (Zpos p) = None.
Proof.
  intros Hbig. unfold PyFloat.of_int. cbn [binary_normalize].
  unfold binary_round.
  pose proof (Binary64.digits2_pos_bounds p) as [Hlow Hup].
  pose proof (Binary64Exact.Zdigits2_ge (Zpos p) 1024 ltac:(lia) Hbig) as Hd.
  cbn [Zdigits2] in Hd. unfold shl_align.
  assert (Hf : fexp PyFloat.prec PyFloat.emax (Zpos (digits2_pos p) + 0)
               = Zpos (digits2_pos p) - 53)
    by (unfold fexp, emin, PyFloat.prec, PyFloat.emax; lia).
  rewrite Hf.
  destruct (Zpos (digits2_pos p) - 53 - 0) as [|d|d] eqn:Hn; try lia.
  destruct (Binary64Exact.binary_round_aux_steps false (Zpos p) 0 loc_Exact)
    as (e1 & m2 & e2 & He1 & Hm2 & He2 & ->); [lia |].
  cbn [Zdigits2] in He1.
  unfold fexp, emin, PyFloat.prec, PyFloat.emax in *.
  set (n := e1 - 0) in *.
  assert (Hnv : n = Zpos (digits2_pos p) - 53) by lia.
  assert (Hpn : 0 < 2 ^ n) by (apply Z.pow_pos_nonneg; lia).
  set (m1 := Zpos p / 2 ^ n) in *.
  assert (Hm1 : 2 ^ 52 <= m1).
  { subst m1. apply Z.div_le_lower_bound; [lia |].
    rewrite <- Z.pow_add_r by lia.
    replace (n + 52) with (Zpos (digits2_pos p) - 1) by lia. exact Hlow. }
  assert (Hd1 : Zdigits2 m1 <= 53).
  { pose proof (Binary64.Zdigits2_div (Zpos p) n ltac:(lia) ltac:(lia)) as H.
    fold m1 in H. cbn [Zdigits2] in H. lia. }
  assert (H52 : 0 < 2 ^ 52) by reflexivity.
  assert (Hd2 : Zdigits2 m2 <= 54 /\ 2 ^ 52 <= m2).
  { destruct Hm2 as [-> | ->]; [lia |].
    pose proof (Binary64.Zdigits2_succ m1 ltac:(lia)). lia. }
  pose proof (Binary64.Zdigits2_nonneg m2).
  set (j := e2 - e1) in *.
  assert (Hj : 0 <= j <= 1) by lia.
  assert (Hm3 : 2 ^ 51 <= m2 / 2 ^ j).
  { apply Z.div_le_lower_bound; [apply Z.pow_pos_nonneg; lia |].
    assert (2 ^ j <= 2 ^ 1) by (apply Z.pow_le_mono_r; lia).
    change (2 ^ 1) with 2 in *. change (2 ^ 52) with (2 * 2 ^ 51) in *.
    assert (0 < 2 ^ 51) by reflexivity. nia. }
  assert (H51 : 0 < 2 ^ 51) by reflexivity.
  destruct (m2 / 2 ^ j) as [|p3|p3]; try lia.
  destruct (Z.leb_spec e2 (1024 - 53)); [lia | reflexivity].
Qed.

(** X18. [get_splits] raises, whatever the fraction, for a count of
    [2 ^ 1024] or more and for a count of [- 2 ^ 1024] or less (an [int] too
    large for a [float]), and, whatever the count, for a fraction that is a
    NaN or an infinity. *)
Theorem get_splits_raises (tokens_size : Z) (fraction : spec_float) :
  (2 ^ 1024 <= tokens_size \/ tokens_size <= - 2 ^ 1024 ->
     get_splits tokens_size fraction = None) /\
  get_splits tokens_size S754_nan = None /\
  (forall s, get_splits tokens_size (S754_infinity s) = None).
Proof.
  assert (H1024 : 0 < 2 ^ 1024) by reflexivity.
  split; [| split].
  - intros [Hbig | Hbig].
    + destruct tokens_size as [|p|p]; try lia.
      unfold get_splits. now rewrite of_int_overflow.
    + destruct tokens_size as [|p|p]; try lia.
      unfold get_splits. rewrite of_int_opp, of_int_overflow; [reflexivity |].
      lia.
  - unfold get_splits. destruct (PyFloat.of_int tokens_size) as [x|];
      [| reflexivity].
    now destruct x.
  - intros s. unfold get_splits.
    destruct (PyFloat.of_int tokens_size) as [x|]; [| reflexivity].
    now destruct x.
Qed.

(** ** The lines of an output file *)

Lemma split_lines (lines : list string) (rest : string) :
  forallb (fun line => negb (has_char NL line)) lines = true ->
  split NL (cat (map (fun line => line ++ nl) lines) ++ rest) =
  (lines ++ split NL rest)%list.
Proof.
  induction lines as [|line lines IH]; [reflexivity |].
  cbn [forallb map cat app]. intros H.
  apply andb_true_iff in H as [Hline Hrest]. apply negb_true_iff in Hline.
  rewrite !append_assoc. unfold nl at 1. cbn [String.append].
  rewrite split_app_sep by assumption. now rewrite IH.
Qed.

Lemma has_char_app (c : ascii) (s t : string) :
  has_char c (s ++ t) = has_char c s || has_char c t.
Proof.
  induction s as [|d s IH]; [reflexivity |]. simpl.
  now rewrite IH, orb_assoc.
Qed.

(** X20. When the titles and the tokenized paragraphs hold no newline, a
    file written by [write_wikitext] reads back line by line: split at the
    newlines it is, for each document in order, the header line and then the
    tokenized paragraphs, and an empty piece after the last newline. *)
Theorem output_lines (mt : Tokenizer) (num_tokens : option Z)
    (text_iter : list article)
    (Hlines : forallb (one_line mt) text_iter = true) :
  let w := fst (write_wikitext text_iter mt num_tokens) in
  exists written,
    f_out w = corpus mt written /\
    count w = len written /\
    split NL (f_out w) =
      (flat_map (fun a => ("= " ++ strip (title a) ++ " =")%string
                          :: tokenized_paragraphs mt a) written
       ++ [""])%list.
Proof.
  destruct (write_wikitext_segment mt num_tokens text_iter)
    as (consumed & E & Hout & Hcount).
  intros w. subst w. exists (filter (accepted mt) consumed).
  split; [exact Hout |]. split; [exact Hcount |]. rewrite Hout.
  assert (Hall : forall a, In a (filter (accepted mt) consumed) ->
                           one_line mt a = true).
  { intros a Ha. apply filter_In in Ha as [Ha _].
    rewrite forallb_forall in Hlines. apply Hlines.
    rewrite E. apply in_or_app. now left. }
  clear E Hout Hcount Hlines. revert Hall.
  generalize (filter (accepted mt) consumed) as l. intros l Hall.
  unfold corpus. induction l as [|a l IH]; [reflexivity |].
  cbn [map cat flat_map].
  specialize (IH (fun b Hb => Hall b (or_intror Hb))).
  pose proof (Hall a (or_introl eq_refl)) as Ha. unfold one_line in Ha.
  apply andb_true_iff in Ha as [Ht Hp].
  assert (Hdoc : document mt a =
                 cat (map (fun line => line ++ nl)
                        (("= " ++ strip (title a) ++ " =")
                         :: tokenized_paragraphs mt a)))
    by (unfold document; cbn [map cat]; now rewrite !append_assoc).
  rewrite Hdoc, split_lines, IH.
  - now rewrite <- app_assoc.
  - cbn [forallb]. rewrite Hp, andb_true_r.
    apply negb_true_iff in Ht. apply negb_true_iff.
    rewrite !has_char_app, Ht. reflexivity.
Qed.

Lemma output_lines_witness :
  let a := mkArticle "A" (words 60 ++ nl ++ words 60) in
  let w := fst (write_wikitext [a] words_tokenizer None) in
  forallb (one_line words_tokenizer) [a] = true /\
  split NL (f_out w) = ["= A ="; words 60; words 60; ""] /\
  exists written,
    f_out w = corpus words_tokenizer written /\
    count w = len written /\
    split NL (f_out w) =
      (flat_map (fun a => ("= " ++ strip (title a) ++ " =")%string
                          :: tokenized_paragraphs words_tokenizer a) written
       ++ [""])%list.
Proof.
  intros a w.
  assert (H : forallb (one_line words_tokenizer) [a] = true)
    by (vm_compute; reflexivity).
  split; [exact H |]. split; [vm_compute; reflexivity |].
  exact (output_lines words_tokenizer None [a] H).
Defined.
